(** * redmonster.datamgr: the ndArch archive codec and the result writers

    A shallow embedding of [read_ndArch] and [write_ndArch]
    (python/redmonster/datamgr/io.py) and of [Write_Redmonster]
    (python/redmonster/datamgr/io2.py), with the properties of the
    archive format stated and proved over it.

    Modelling conventions.
    - Python exceptions are values of [exn]; a call that can raise returns
      a [result].
    - A Python number is an element of a type [num] carrying the
      arithmetic the code uses ([Numeric]); the development is parametric
      in it and is instantiated with exact integers ([Z]) and with IEEE
      binary64 ([float]).
    - The FITS library (astropy.io.fits) is outside the repository.  A
      header is a finite map from keyword to value, [header.set] is map
      insertion, [key in header] is membership, [header[key]] raises
      [KeyError] on a missing keyword; a file is a header with an array,
      and the file system maps names to files.  A file holds the values of
      its cards as the library reads them.  The encoder is given twice:
      over a container that keeps every value it is handed
      ([write_ndArch]), and over a library that is a parameter
      ([write_ndArch_via]), whose cards may change or reject a value. *)

From Stdlib Require Import ZArith String Ascii List Floats Lia.
From stdpp Require Import base strings gmap list pretty.

Local Open Scope string_scope.
Local Open Scope list_scope.
Local Open Scope Z_scope.

(** ** Exceptions and results *)

(** The exceptions the modelled code can raise, followed by the four error
    kinds of the specification's taxonomy, which no code path constructs,
    and by the [ValueError] with which the FITS library rejects a value it
    cannot put on a card. *)
Inductive exn : Type :=
  | KeyError (key : string)
  | IndexError
  | TypeError
  | IOError
  | MalformedArchiveError
  | InvalidNameError
  | AxisShapeMismatchError
  | DegenerateAxisError
  | ValueError.

Inductive result (A : Type) : Type :=
  | Ok (a : A)
  | Raise (e : exn).
Arguments Ok {A} a.
Arguments Raise {A} e.

Definition bind {A B} (r : result A) (k : A → result B) : result B :=
  match r with
  | Ok a => k a
  | Raise e => Raise e
  end.

Notation "x <- r ;; k" := (bind r (fun x => k))
  (at level 60, r at next level, right associativity).

(** A loop whose body may raise: the state is threaded from left to right
    and the first exception aborts the loop. *)
Fixpoint for_each {S I} (body : S → I → result S) (s : S) (l : list I)
  : result S :=
  match l with
  | [] => Ok s
  | i :: l' => s' <- body s i ;; for_each body s' l'
  end.

(** ** Python sequences and strings *)

(** [l[i]] for a non-negative index. *)
Definition index {A} (l : list A) (i : nat) : result A :=
  match l !! i with
  | Some x => Ok x
  | None => Raise IndexError
  end.

(** [l[i]] for any integer index: a negative index counts from the end. *)
Definition py_index {A} (l : list A) (i : Z) : result A :=
  let n := Z.of_nat (length l) in
  let j := if i <? 0 then i + n else i in
  if (j <? 0) || (n <=? j) then Raise IndexError else index l (Z.to_nat j).

(** [xrange(n)]; empty when [n] is negative. *)
Definition xrange (n : Z) : list nat := seq 0 (Z.to_nat n).

(** [[x] * n]; empty when [n] is negative. *)
Definition py_repeat {A} (x : A) (n : Z) : list A :=
  replicate (Z.to_nat n) x.

(** [t[:-1]] on a tuple. *)
Definition all_but_last {A} (l : list A) : list A :=
  take (length l - 1)%nat l.

(** [s.split(c)] for a one-character separator. *)
Fixpoint split (c : ascii) (s : string) : list string :=
  match s with
  | EmptyString => [EmptyString]
  | String a s' =>
      if Ascii.eqb a c then EmptyString :: split c s'
      else match split c s' with
           | t :: ts => String a t :: ts
           | [] => [String a EmptyString]
           end
  end.

(** [s.rfind(sub)]: the highest index at which [sub] occurs in [s], or -1.
    [rfind_from] scans the suffix of [s] that starts at index [i]. *)
Fixpoint rfind_from (sub s : string) (i : Z) : Z :=
  match s with
  | EmptyString => if String.prefix sub EmptyString then i else -1
  | String _ s' =>
      let r := rfind_from sub s' (i + 1) in
      if 0 <=? r then r else if String.prefix sub s then i else -1
  end.

Definition rfind (s sub : string) : Z := rfind_from sub s 0.

(** [s[:i]]: a negative bound counts from the end, and the bound is clipped
    to the string. *)
Definition slice_to (s : string) (i : Z) : string :=
  let n := Z.of_nat (String.length s) in
  let j := if i <? 0 then Z.max 0 (i + n) else Z.min i n in
  substring 0 (Z.to_nat j) s.

Definition is_space (a : ascii) : bool :=
  let n := nat_of_ascii a in
  (n =? 32)%nat || ((9 <=? n)%nat && (n <=? 13)%nat).

Fixpoint lstrip (s : string) : string :=
  match s with
  | EmptyString => EmptyString
  | String a s' => if is_space a then lstrip s' else s
  end.

(** [s.strip()]. *)
Definition strip (s : string) : string :=
  String.rev (lstrip (String.rev (lstrip s))).

(** [str(n)] for an integer. *)
Definition str (n : Z) : string := pretty n.

(** ** Numbers and scalar values *)

(** The arithmetic the code uses on the numbers of an archive: the
    conversion of a pixel number, the float literal [1.0] that the encoder
    writes as the reference pixel of an axis, and the three operations;
    and whether two numbers have the same Python type, in which case an
    array made of them holds them unchanged. *)
Class Numeric (num : Type) := {
  of_Z : Z → num;
  one_float : num;
  nadd : num → num → num;
  nsub : num → num → num;
  nmul : num → num → num;
  same_type : num → num → bool
}.

(** Exact integers, where the float [1.0] is the number 1. *)
#[export] Instance Numeric_Z : Numeric Z := {
  of_Z := id; one_float := 1; nadd := Z.add; nsub := Z.sub; nmul := Z.mul;
  same_type := λ _ _, true
}.

(** Conversion of a Python integer to binary64 (exact below 2^53). *)
Definition float_of_Z (z : Z) : float :=
  match z with
  | Z0 => PrimFloat.of_uint63 (Uint63.of_Z 0)
  | Zpos _ => PrimFloat.of_uint63 (Uint63.of_Z z)
  | Zneg _ => PrimFloat.opp (PrimFloat.of_uint63 (Uint63.of_Z (- z)))
  end.

#[export] Instance Numeric_float : Numeric float := {
  of_Z := float_of_Z; one_float := 0x1p+0%float;
  nadd := PrimFloat.add; nsub := PrimFloat.sub; nmul := PrimFloat.mul;
  same_type := λ _ _, true
}.

(** The numbers of Python: an integer or a float.  An operation on two
    integers is exact (the integers of the archives are within the 64-bit
    range of the arrays); with a float among its operands it is the
    binary64 operation, the integer converted first. *)
Inductive pynum : Type :=
  | PInt (z : Z)
  | PFloat (x : float).

Definition to_float (a : pynum) : float :=
  match a with
  | PInt z => float_of_Z z
  | PFloat x => x
  end.

Definition pynum_op (fz : Z → Z → Z) (ff : float → float → float)
    (a b : pynum) : pynum :=
  match a, b with
  | PInt x, PInt y => PInt (fz x y)
  | _, _ => PFloat (ff (to_float a) (to_float b))
  end.

#[export] Instance Numeric_pynum : Numeric pynum := {
  of_Z := PInt; one_float := PFloat 0x1p+0%float;
  nadd := pynum_op Z.add PrimFloat.add;
  nsub := pynum_op Z.sub PrimFloat.sub;
  nmul := pynum_op Z.mul PrimFloat.mul;
  same_type := λ a b, match a, b with
                      | PInt _, PInt _ | PFloat _, PFloat _ => true
                      | _, _ => false
                      end
}.

Section Codec.
Context {num : Type} `{Numeric num}.

(** The scalars a header keyword or a baseline element can hold. *)
Inductive pyval : Type :=
  | VNum (x : num)
  | VStr (s : string)
  | VBool (b : bool).

(** The numeric reading of a scalar in arithmetic: a boolean counts as 0 or
    1, a string is a type error. *)
Definition as_num (v : pyval) : result num :=
  match v with
  | VNum x => Ok x
  | VBool b => Ok (of_Z (if b then 1 else 0))
  | VStr _ => Raise TypeError
  end.

(** An N-dimensional array: its shape and its samples in storage order. *)
Record ndarray : Type := mk_ndarray {
  shape : list nat;
  flat : list num
}.

(** ** The FITS container (astropy.io.fits) *)

Abbreviation header := (gmap string pyval).

Record fitsfile : Type := mk_fitsfile {
  hdr : header;
  dat : ndarray
}.

Abbreviation filesystem := (gmap string fitsfile).

(** [header.set(key, value=v)]: update the card, or append it. *)
Definition header_set (key : string) (v : pyval) (h : header) : header :=
  <[key := v]> h.

(** [key in header]. *)
Definition header_has (h : header) (key : string) : bool :=
  bool_decide (is_Some (h !! key)).

(** [header[key]]. *)
Definition header_get (h : header) (key : string) : result pyval :=
  match h !! key with
  | Some v => Ok v
  | None => Raise (KeyError key)
  end.

(** The structural cards of [fits.PrimaryHDU(data)] for an array of 64-bit
    floating-point samples: FITS numbers the axes from the fastest-varying
    one, so [NAXISk] is the k-th entry of the reversed shape. *)
Definition naxis_cards (sh : list nat) : list (string * pyval) :=
  imap (fun i n => ("NAXIS" +:+ str (Z.of_nat i + 1), VNum (of_Z (Z.of_nat n))))
       (rev sh).

Definition set_cards (cards : list (string * pyval)) (h : header) : header :=
  foldl (fun h kv => header_set kv.1 kv.2 h) h cards.

Definition PrimaryHDU (data : ndarray) : header :=
  header_set "EXTEND" (VBool true)
    (set_cards (naxis_cards (shape data))
       (header_set "NAXIS" (VNum (of_Z (Z.of_nat (length (shape data)))))
          (header_set "BITPIX" (VNum (of_Z (-64)))
             (header_set "SIMPLE" (VBool true) ∅)))).

(** [hdu.writeto(name, clobber=True)]. *)
Definition writeto (name : string) (f : fitsfile) (fs : filesystem)
  : filesystem :=
  <[name := f]> fs.

(** [fits.getdata(name).copy()] and [fits.getheader(name)].  A primary HDU
    without data (NAXIS = 0) is a file whose array has rank 0; on it
    [getdata] raises [IndexError]. *)
Definition getdata (name : string) (fs : filesystem) : result ndarray :=
  match fs !! name with
  | Some f =>
      match shape (dat f) with
      | [] => Raise IndexError
      | _ :: _ => Ok (dat f)
      end
  | None => Raise IOError
  end.

Definition getheader (name : string) (fs : filesystem) : result header :=
  match fs !! name with
  | Some f => Ok (hdr f)
  | None => Raise IOError
  end.

(** ** The info dictionary

    A Python dict with a fixed set of string keys; a key that is absent
    from the dict is a field that is [None]. *)
Record infodict : Type := mk_infodict {
  filename : option string;
  class : option string;
  version : option string;
  coeff0 : option pyval;
  coeff1 : option pyval;
  nwave : option pyval;
  fluxunit : option pyval;
  par_names : option (list pyval);
  par_units : option (list pyval);
  par_axistype : option (list string)
}.

(** [infodict[key]]. *)
Definition item {A} (key : string) (field : option A) : result A :=
  match field with
  | Some x => Ok x
  | None => Raise (KeyError key)
  end.

Definition set_par_names (l : list pyval) (d : infodict) : infodict :=
  mk_infodict (filename d) (class d) (version d) (coeff0 d) (coeff1 d)
    (nwave d) (fluxunit d) (Some l) (par_units d) (par_axistype d).

Definition set_par_units (l : list pyval) (d : infodict) : infodict :=
  mk_infodict (filename d) (class d) (version d) (coeff0 d) (coeff1 d)
    (nwave d) (fluxunit d) (par_names d) (Some l) (par_axistype d).

Definition set_par_axistype (l : list string) (d : infodict) : infodict :=
  mk_infodict (filename d) (class d) (version d) (coeff0 d) (coeff1 d)
    (nwave d) (fluxunit d) (par_names d) (par_units d) (Some l).

Definition set_fluxunit (v : pyval) (d : infodict) : infodict :=
  mk_infodict (filename d) (class d) (version d) (coeff0 d) (coeff1 d)
    (nwave d) (Some v) (par_names d) (par_units d) (par_axistype d).

(** ** write_ndArch *)

(** The keyword [pre + ax + '_' + str(j+1)] of pixel [j] of an axis. *)
Definition pixel_key (pre ax : string) (j : nat) : string :=
  pre +:+ ax +:+ "_" +:+ str (Z.of_nat j + 1).

(** [[pre+ax+'_'+str(j+1) for j in xrange(n)]]. *)
Definition key_family (pre ax : string) (n : nat) : list string :=
  map (pixel_key pre ax) (xrange (Z.of_nat n)).

(** [for j in xrange(n): hdu.header.set(base[j], value=baselines[ipar][j])]. *)
Definition write_family (base : list string) (baselines : list (list pyval))
    (ipar n : nat) (h : header) : result header :=
  for_each (fun h j =>
              key <- index base j ;;
              b <- index baselines ipar ;;
              v <- index b j ;;
              Ok (header_set key v h))
           h (xrange (Z.of_nat n)).

(** The body of the loop over the parameter axes (io.py, lines 171-197). *)
Definition write_axis (data : ndarray) (baselines : list (list pyval))
    (info : infodict) (npars : Z) (h : header) (ipar : nat) : result header :=
  let ax := str (npars + 1 - Z.of_nat ipar) in
  h <- match par_names info with
       | Some names =>
           v <- index names ipar ;; Ok (header_set ("CNAME" +:+ ax) v h)
       | None => Ok h
       end ;;
  h <- match par_units info with
       | Some units =>
           v <- index units ipar ;; Ok (header_set ("CUNIT" +:+ ax) v h)
       | None => Ok h
       end ;;
  types <- item "par_axistype" (par_axistype info) ;;
  kind <- index types ipar ;;
  if String.eqb (strip kind) "regular" then
    let h := header_set ("CRPIX" +:+ ax) (VNum one_float) h in
    b <- index baselines ipar ;;
    b0 <- index b 0 ;;
    let h := header_set ("CRVAL" +:+ ax) b0 h in
    b1 <- index b 1 ;;
    x1 <- as_num b1 ;;
    x0 <- as_num b0 ;;
    Ok (header_set ("CDELT" +:+ ax) (VNum (nsub x1 x0)) h)
  else if String.eqb (strip kind) "irregular" then
    n <- index (shape data) ipar ;;
    write_family (key_family "PV" ax n) baselines ipar n h
  else if String.eqb (strip kind) "labeled" then
    n <- index (shape data) ipar ;;
    write_family (key_family "PS" ax n) baselines ipar n h
  else if String.eqb (strip kind) "named" then
    n <- index (shape data) ipar ;;
    write_family (key_family "N" ax n) baselines ipar n h
  else Ok h.

(** The statements before the loop (io.py, lines 158-168): the HDU, the
    flux unit and the cards of the wavelength axis. *)
Definition write_prologue (data : ndarray) (info : infodict) : result header :=
  let h := PrimaryHDU data in
  let h := match fluxunit info with
           | Some u => header_set "BUNIT" u h
           | None => h
           end in
  let h := header_set "CNAME1" (VStr "loglam") h in
  let h := header_set "CUNIT1" (VStr "log10(Angstroms)") h in
  let h := header_set "CRPIX1" (VNum one_float) h in
  c0 <- item "coeff0" (coeff0 info) ;;
  let h := header_set "CRVAL1" c0 h in
  c1 <- item "coeff1" (coeff1 info) ;;
  Ok (header_set "CDELT1" c1 h).

(** The header [write_ndArch] has built when it reaches [writeto]. *)
Definition write_header (data : ndarray) (baselines : list (list pyval))
    (info : infodict) : result header :=
  h <- write_prologue data info ;;
  let npars := Z.of_nat (length (shape data)) - 1 in
  for_each (write_axis data baselines info npars) h (rev (xrange npars)).

(** [write_ndArch] (io.py, lines 120-198): the file is written by the last
    statement, so that an exception leaves the file system as it was. *)
Definition write_ndArch (data : ndarray) (baselines : list (list pyval))
    (info : infodict) (fs : filesystem) : result filesystem :=
  h <- write_header data baselines info ;;
  name <- item "filename" (filename info) ;;
  Ok (writeto name (mk_fitsfile h data) fs).

(** ** write_ndArch over a FITS library

    What the library and the file system do with what the encoder hands
    them is not in the repository and is taken as given: [card key v] is
    the value the card of the keyword [key] holds after [header.set] with
    [value=v], as the library reads it from the file, or the exception with
    which the library rejects the keyword or the value; [image data] is the
    array read from a file written with [data], or the exception of writing
    it; [creatable name] tells whether a file of that name can be
    created. *)
Record fits_library : Type := mk_library {
  card : string → pyval → result pyval;
  image : ndarray → result ndarray;
  creatable : string → bool
}.

Section Library.
Variable lib : fits_library.

(** [header.set(key, value=v)]. *)
Definition header_set_via (key : string) (v : pyval) (h : header)
  : result header :=
  v' <- card lib key v ;; Ok (header_set key v' h).

Definition write_family_via (base : list string)
    (baselines : list (list pyval)) (ipar n : nat) (h : header)
  : result header :=
  for_each (fun h j =>
              key <- index base j ;;
              b <- index baselines ipar ;;
              v <- index b j ;;
              header_set_via key v h)
           h (xrange (Z.of_nat n)).

(** The body of the loop over the parameter axes (io.py, lines 171-197). *)
Definition write_axis_via (data : ndarray) (baselines : list (list pyval))
    (info : infodict) (npars : Z) (h : header) (ipar : nat) : result header :=
  let ax := str (npars + 1 - Z.of_nat ipar) in
  h <- match par_names info with
       | Some names =>
           v <- index names ipar ;; header_set_via ("CNAME" +:+ ax) v h
       | None => Ok h
       end ;;
  h <- match par_units info with
       | Some units =>
           v <- index units ipar ;; header_set_via ("CUNIT" +:+ ax) v h
       | None => Ok h
       end ;;
  types <- item "par_axistype" (par_axistype info) ;;
  kind <- index types ipar ;;
  if String.eqb (strip kind) "regular" then
    h <- header_set_via ("CRPIX" +:+ ax) (VNum one_float) h ;;
    b <- index baselines ipar ;;
    b0 <- index b 0 ;;
    h <- header_set_via ("CRVAL" +:+ ax) b0 h ;;
    b1 <- index b 1 ;;
    x1 <- as_num b1 ;;
    x0 <- as_num b0 ;;
    header_set_via ("CDELT" +:+ ax) (VNum (nsub x1 x0)) h
  else if String.eqb (strip kind) "irregular" then
    n <- index (shape data) ipar ;;
    write_family_via (key_family "PV" ax n) baselines ipar n h
  else if String.eqb (strip kind) "labeled" then
    n <- index (shape data) ipar ;;
    write_family_via (key_family "PS" ax n) baselines ipar n h
  else if String.eqb (strip kind) "named" then
    n <- index (shape data) ipar ;;
    write_family_via (key_family "N" ax n) baselines ipar n h
  else Ok h.

(** The statements before the loop (io.py, lines 158-168). *)
Definition write_prologue_via (data : ndarray) (info : infodict)
  : result header :=
  let h := PrimaryHDU data in
  h <- match fluxunit info with
       | Some u => header_set_via "BUNIT" u h
       | None => Ok h
       end ;;
  h <- header_set_via "CNAME1" (VStr "loglam") h ;;
  h <- header_set_via "CUNIT1" (VStr "log10(Angstroms)") h ;;
  h <- header_set_via "CRPIX1" (VNum one_float) h ;;
  c0 <- item "coeff0" (coeff0 info) ;;
  h <- header_set_via "CRVAL1" c0 h ;;
  c1 <- item "coeff1" (coeff1 info) ;;
  header_set_via "CDELT1" c1 h.

Definition write_header_via (data : ndarray) (baselines : list (list pyval))
    (info : infodict) : result header :=
  h <- write_prologue_via data info ;;
  let npars := Z.of_nat (length (shape data)) - 1 in
  for_each (write_axis_via data baselines info npars) h (rev (xrange npars)).

(** [write_ndArch] (io.py, lines 120-198); the last statement,
    [hdu.writeto(infodict['filename'], clobber=True)], creates the file.  *)
Definition write_ndArch_via (data : ndarray) (baselines : list (list pyval))
    (info : infodict) (fs : filesystem) : result filesystem :=
  h <- write_header_via data baselines info ;;
  name <- item "filename" (filename info) ;;
  if creatable lib name then
    data' <- image lib data ;;
    Ok (writeto name (mk_fitsfile h data') fs)
  else Raise IOError.

End Library.

(** ** read_ndArch *)

(** [n.asarray(tests).prod()] for a list of booleans; 1 on the empty list. *)
Definition prod (tests : list bool) : Z :=
  foldr (fun (b : bool) acc => (if b then 1 else 0) * acc) 1 tests.

(** [[header[k] for k in base]]. *)
Fixpoint get_all (h : header) (base : list string) : result (list pyval) :=
  match base with
  | [] => Ok []
  | k :: base' => v <- header_get h k ;; vs <- get_all h base' ;; Ok (v :: vs)
  end.

(** [n.arange(size) + 1]. *)
Definition index_baseline (size : nat) : list pyval :=
  map (fun k => VNum (of_Z (Z.of_nat k + 1))) (xrange (Z.of_nat size)).

(** [(n.arange(size) + 1 - crpix) * cdelt + crval]. *)
Definition regular_baseline (size : nat) (crpix cdelt crval : num)
  : list pyval :=
  map (fun k => VNum (nadd (nmul (nsub (of_Z (Z.of_nat k + 1)) crpix) cdelt)
                           crval))
      (xrange (Z.of_nat size)).

(** [infodict[key][ipar] = v] for the three per-axis lists. *)
Definition assign_par_name (ipar : nat) (v : pyval) (d : infodict)
  : result infodict :=
  l <- item "par_names" (par_names d) ;; Ok (set_par_names (<[ipar := v]> l) d).

Definition assign_par_unit (ipar : nat) (v : pyval) (d : infodict)
  : result infodict :=
  l <- item "par_units" (par_units d) ;; Ok (set_par_units (<[ipar := v]> l) d).

Definition assign_par_axistype (ipar : nat) (k : string) (d : infodict)
  : result infodict :=
  l <- item "par_axistype" (par_axistype d) ;;
  Ok (set_par_axistype (<[ipar := k]> l) d).

(** The body of the loop over the parameter axes (io.py, lines 78-110); the
    state is the list of baselines and the info dictionary, both updated in
    place. *)
Definition read_axis (data : ndarray) (h : header) (npars : Z)
    (st : list (list pyval) * infodict) (ipar : nat)
  : result (list (list pyval) * infodict) :=
  let baselines := st.1 in
  let info := st.2 in
  let ax := str (npars + 1 - Z.of_nat ipar) in
  info <- (if header_has h ("CNAME" +:+ ax)
           then v <- header_get h ("CNAME" +:+ ax) ;; assign_par_name ipar v info
           else Ok info) ;;
  info <- (if header_has h ("CUNIT" +:+ ax)
           then v <- header_get h ("CUNIT" +:+ ax) ;; assign_par_unit ipar v info
           else Ok info) ;;
  let is_regular := header_has h ("CRPIX" +:+ ax)
                    && header_has h ("CRVAL" +:+ ax)
                    && header_has h ("CDELT" +:+ ax) in
  n <- index (shape data) ipar ;;
  let pv_base := key_family "PV" ax n in
  let pv_test := map (header_has h) pv_base in
  let is_irregular := 0 <? prod pv_test in
  let ps_base := key_family "PS" ax n in
  let ps_test := map (header_has h) ps_base in
  let is_labeled := 0 <? prod ps_test in
  let n_base := key_family "N" ax n in
  let n_test := map (header_has h) n_base in
  let is_named := 0 <? prod n_test in
  if is_regular then
    crpix <- header_get h ("CRPIX" +:+ ax) ;;
    crpix <- as_num crpix ;;
    cdelt <- header_get h ("CDELT" +:+ ax) ;;
    cdelt <- as_num cdelt ;;
    crval <- header_get h ("CRVAL" +:+ ax) ;;
    crval <- as_num crval ;;
    info <- assign_par_axistype ipar "regular" info ;;
    Ok (<[ipar := regular_baseline n crpix cdelt crval]> baselines, info)
  else if is_irregular then
    b <- get_all h pv_base ;;
    info <- assign_par_axistype ipar "irregular" info ;;
    Ok (<[ipar := b]> baselines, info)
  else if is_labeled then
    b <- get_all h ps_base ;;
    info <- assign_par_axistype ipar "labeled" info ;;
    Ok (<[ipar := b]> baselines, info)
  else if is_named then
    b <- get_all h n_base ;;
    info <- assign_par_axistype ipar "named" info ;;
    Ok (<[ipar := b]> baselines, info)
  else Ok (baselines, info).

(** The class and version tokens of the file name (io.py, lines 54-56). *)
Definition parse_name (fname : string) : result (string * string) :=
  let fn_ROOT := slice_to fname (rfind fname ".fits") in
  fn_CLASS <- py_index (split "-" fn_ROOT) (-2) ;;
  fn_VERSION <- py_index (split "-" fn_ROOT) (-1) ;;
  Ok (fn_CLASS, fn_VERSION).

(** [read_ndArch] (io.py, lines 16-111). *)
Definition read_ndArch (fname : string) (fs : filesystem)
  : result (ndarray * list (list pyval) * infodict) :=
  cv <- parse_name fname ;;
  data <- getdata fname fs ;;
  h <- getheader fname fs ;;
  let npars := Z.of_nat (length (shape data)) - 1 in
  base <- py_index (split "/" fname) (-1) ;;
  c0 <- header_get h "CRVAL1" ;;
  c1 <- header_get h "CDELT1" ;;
  nw <- header_get h "NAXIS1" ;;
  let info :=
    mk_infodict (Some base) (Some cv.1) (Some cv.2) (Some c0) (Some c1)
      (Some nw) (Some (VStr "")) (Some (py_repeat (VStr "") npars))
      (Some (py_repeat (VStr "") npars)) (Some (py_repeat "index" npars)) in
  info <- (if header_has h "BUNIT"
           then v <- header_get h "BUNIT" ;; Ok (set_fluxunit v info)
           else Ok info) ;;
  let baselines := map index_baseline (all_but_last (shape data)) in
  st <- for_each (read_axis data h npars) (baselines, info) (xrange npars) ;;
  Ok (data, st.1, st.2).

End Codec.

Arguments pyval : clear implicits.
Arguments ndarray : clear implicits.
Arguments fitsfile : clear implicits.
Arguments infodict : clear implicits.
Arguments fits_library : clear implicits.

(** ** Write_Redmonster (io2.py)

    The writer acts on a world of files, directories and environment
    variables.  A method returns the object and the world it leaves behind
    together with its outcome: an exception does not undo a file already
    written.  The clock ([strftime(..., gmtime())]) is the argument [now].
    Assembling the HDU list from the zpick object ([create_hdulist]) and
    [os.makedirs] are taken as given. *)

Section Writer.
Context {hdulist : Type}.

Record zpicker : Type := mk_zpicker {
  plate : Z;
  mjd : Z;
  fiberid : list Z
}.

Record Write_Redmonster : Type := mk_writer {
  clobber : bool;
  zpick : zpicker;
  dest : option string;
  thdulist : option hdulist
}.

Record world : Type := mk_world {
  files : gmap string hdulist;
  dirs : gset string;
  environ : gmap string string
}.

Variable makedirs : string → world → world * result unit.
Variable build_hdulist : zpicker → string → result hdulist.

(** [os.path.exists]. *)
Definition path_exists (p : string) (w : world) : bool :=
  bool_decide (is_Some (files w !! p)) || bool_decide (p ∈ dirs w).

(** [os.path.join] with two arguments. *)
Definition path_join (a b : string) : string :=
  if String.prefix "/" b then b
  else if String.eqb a "" || String.prefix "/" (String.rev a) then a +:+ b
  else a +:+ "/" +:+ b.

(** ['%03d' % n]. *)
Definition fmt_03d (n : Z) : string :=
  let sign := if n <? 0 then "-" else "" in
  let digits := str (Z.abs n) in
  let pad := (3 - String.length sign - String.length digits)%nat in
  sign +:+ string_of_list_ascii (repeat "0"%char pad) +:+ digits.

(** ['redmonster-%s-%s-%03d.fits' % (plate, mjd, fiberid[0])]. *)
Definition fiber_name (z : zpicker) : result string :=
  f <- index (fiberid z) 0 ;;
  Ok ("redmonster-" +:+ str (plate z) +:+ "-" +:+ str (mjd z) +:+ "-"
      +:+ fmt_03d f +:+ ".fits").

(** ['redmonster-%s-%s-%s-%03d.fits' % (plate, mjd, fiberid[0], strftime(...))]:
    the time stamp, a string, meets the conversion [%03d], which raises
    [TypeError]. *)
Definition fiber_name_stamped (z : zpicker) (now : string) : result string :=
  f <- index (fiberid z) 0 ;;
  Raise TypeError.

(** ['redmonster-%s-%s.fits' % (plate, mjd)]. *)
Definition plate_name (z : zpicker) : string :=
  "redmonster-" +:+ str (plate z) +:+ "-" +:+ str (mjd z) +:+ ".fits".

(** ['redmonster-%s-%s-%s.fits' % (plate, mjd, strftime(...))]. *)
Definition plate_name_stamped (z : zpicker) (now : string) : string :=
  "redmonster-" +:+ str (plate z) +:+ "-" +:+ str (mjd z) +:+ "-" +:+ now
  +:+ ".fits".

(** [HDUList.writeto(name, clobber=c)]: an existing file is replaced when
    [c] holds and the call raises otherwise. *)
Definition hdul_writeto (name : string) (c : bool) (h : hdulist) (w : world)
  : world * result unit :=
  if path_exists name w && negb c then (w, Raise IOError)
  else (mk_world (<[name := h]> (files w)) (dirs w) (environ w), Ok tt).

(** [__init__(self, zpick, dest=None, clobber=True)] (io2.py, lines
    33-60); an omitted argument is [None]. *)
Definition init (z : zpicker) (dest_arg : option string)
    (clobber_arg : option bool) (w : world)
  : world * result Write_Redmonster :=
  let c := match clobber_arg with Some c => c | None => true end in
  match dest_arg with
  | Some d =>
      if path_exists d w then (w, Ok (mk_writer c z (Some d) None))
      else match makedirs d w with
           | (w', Ok _) => (w', Ok (mk_writer c z (Some d) None))
           | (w', Raise _) => (w', Ok (mk_writer c z None None))
           end
  | None =>
      match environ w !! "REDMONSTER_SPECTRO_REDUX", environ w !! "RUN2D",
            environ w !! "RUN1D" with
      | None, _, _ => (w, Raise (KeyError "REDMONSTER_SPECTRO_REDUX"))
      | Some _, None, _ => (w, Raise (KeyError "RUN2D"))
      | Some _, Some _, None => (w, Raise (KeyError "RUN1D"))
      | Some bsr, Some run2d, Some run1d =>
          if negb (String.eqb bsr "") && negb (String.eqb run2d "")
             && negb (String.eqb run1d "")
          then
            let testpath :=
              path_join (path_join (path_join bsr run2d) (str (plate z)))
                        run1d in
            if path_exists testpath w
            then (w, Ok (mk_writer c z (Some testpath) None))
            else match makedirs testpath w with
                 | (w', Ok _) => (w', Ok (mk_writer c z (Some testpath) None))
                 | (w', Raise _) => (w', Ok (mk_writer c z None None))
                 end
          else (w, Ok (mk_writer c z None None))
      end
  end.

(** [create_hdulist]: stores the assembled HDU list in [self.thdulist]. *)
Definition create_hdulist (now : string) (self : Write_Redmonster)
  : result (Write_Redmonster * hdulist) :=
  h <- build_hdulist (zpick self) now ;;
  Ok (mk_writer (clobber self) (zpick self) (dest self) (Some h), h).

(** Continues with a formatted file name, or stops with the exception its
    formatting raised. *)
Definition with_name (name : result string) (w : world)
    (k : string → world * result unit) : world * result unit :=
  match name with
  | Ok nm => k nm
  | Raise e => (w, Raise e)
  end.

(** [write_fiber] (io2.py, lines 116-140).  The first statement overrides
    [self.clobber].  After a clobbering write into the working directory
    the message to print has three conversions and two arguments, which
    raises [TypeError]; the other messages are formatted without error. *)
Definition write_fiber (now : string) (self : Write_Redmonster) (w : world)
  : Write_Redmonster * world * result unit :=
  let self := mk_writer true (zpick self) (dest self) (thdulist self) in
  match create_hdulist now self with
  | Raise e => (self, w, Raise e)
  | Ok (self, h) =>
      let z := zpick self in
      let r :=
        if clobber self then
          match dest self with
          | Some d =>
              with_name (fiber_name z) w (fun nm =>
                hdul_writeto (path_join d nm) (clobber self) h w)
          | None =>
              with_name (fiber_name z) w (fun nm =>
                match hdul_writeto nm (clobber self) h w with
                | (w', Ok _) => (w', Raise TypeError)
                | (w', Raise e) => (w', Raise e)
                end)
          end
        else
          match dest self with
          | Some d =>
              with_name (fiber_name z) w (fun nm =>
                if path_exists (path_join d nm) w then
                  with_name (fiber_name_stamped z now) w (fun snm =>
                    hdul_writeto (path_join d snm) false h w)
                else hdul_writeto (path_join d nm) false h w)
          | None =>
              with_name (fiber_name z) w (fun nm =>
                if path_exists nm w then
                  with_name (fiber_name_stamped z now) w (fun snm =>
                    hdul_writeto snm false h w)
                else hdul_writeto nm false h w)
          end in
      (self, r.1, r.2)
  end.

(** [write_plate] (io2.py, lines 144-168). *)
Definition write_plate (now : string) (self : Write_Redmonster) (w : world)
  : Write_Redmonster * world * result unit :=
  match create_hdulist now self with
  | Raise e => (self, w, Raise e)
  | Ok (self, h) =>
      let z := zpick self in
      let r :=
        if clobber self then
          match dest self with
          | Some d =>
              hdul_writeto (path_join d (plate_name z)) (clobber self) h w
          | None => hdul_writeto (plate_name z) (clobber self) h w
          end
        else
          match dest self with
          | Some d =>
              if path_exists (path_join d (plate_name z)) w then
                hdul_writeto (path_join d (plate_name_stamped z now)) false h w
              else hdul_writeto (path_join d (plate_name z)) false h w
          | None =>
              if path_exists (plate_name z) w then
                hdul_writeto (plate_name_stamped z now) false h w
              else hdul_writeto (plate_name z) false h w
          end in
      (self, r.1, r.2)
  end.

End Writer.

(** ** Vocabulary of the properties *)

(** The exceptions of the Python run time, as opposed to the error kinds
    the specification names. *)
Definition python_exn (e : exn) : Prop :=
  match e with
  | KeyError _ | IndexError | TypeError | IOError => True
  | _ => False
  end.

Definition raises_python {A} (r : result A) : Prop :=
  match r with
  | Ok _ => True
  | Raise e => python_exn e
  end.

Definition is_digit (a : ascii) : bool :=
  let n := nat_of_ascii a in (48 <=? n)%nat && (n <=? 57)%nat.

Fixpoint all_digits (s : string) : bool :=
  match s with
  | EmptyString => true
  | String a s' => is_digit a && all_digits s'
  end.

(** [c] does not occur in [s]. *)
Fixpoint free_of (c : ascii) (s : string) : bool :=
  match s with
  | EmptyString => true
  | String a s' => negb (Ascii.eqb a c) && free_of c s'
  end.

(** The keywords that describe the axis numbered [ax]: name, unit, the
    regular triple and the three per-pixel families. *)
Inductive owned (ax : string) : string → Prop :=
  | owned_scalar pre :
      pre ∈ ["CNAME"; "CUNIT"; "CRPIX"; "CRVAL"; "CDELT"] →
      owned ax (pre +:+ ax)
  | owned_pixel pre j :
      pre ∈ ["PV"; "PS"; "N"] → owned ax (pixel_key pre ax j).

Section Detection.
Context {num : Type} `{Numeric num}.

(** The detection rule of the data model, stated on the header alone: the
    regular triple is present; every keyword of a family is present. *)
Definition regular_present (h : gmap string (pyval num)) (ax : string) : bool :=
  header_has h ("CRPIX" +:+ ax) && header_has h ("CRVAL" +:+ ax)
  && header_has h ("CDELT" +:+ ax).

Definition family_present (h : gmap string (pyval num)) (pre ax : string) (n : nat)
  : bool :=
  forallb (header_has h) (key_family pre ax n).

Definition detect_kind (h : gmap string (pyval num)) (ax : string) (n : nat)
  : string :=
  if regular_present h ax then "regular"
  else if family_present h "PV" ax n then "irregular"
  else if family_present h "PS" ax n then "labeled"
  else if family_present h "N" ax n then "named"
  else "index".

(** The baseline of one axis as a function of the header: the pure view of
    what a pass of the decoding loop leaves in [baselines[ipar]]. *)
Definition decoded_baseline (h : gmap string (pyval num)) (ax : string)
    (n : nat) : result (list (pyval num)) :=
  if regular_present h ax then
    crpix <- header_get h ("CRPIX" +:+ ax) ;;
    crpix <- as_num crpix ;;
    cdelt <- header_get h ("CDELT" +:+ ax) ;;
    cdelt <- as_num cdelt ;;
    crval <- header_get h ("CRVAL" +:+ ax) ;;
    crval <- as_num crval ;;
    Ok (regular_baseline n crpix cdelt crval)
  else if family_present h "PV" ax n then get_all h (key_family "PV" ax n)
  else if family_present h "PS" ax n then get_all h (key_family "PS" ax n)
  else if family_present h "N" ax n then get_all h (key_family "N" ax n)
  else Ok (index_baseline n).

(** Two info dictionaries with the same scalar entries, and with per-axis
    lists of the same lengths. *)
Definition same_scalars (d d' : infodict num) : Prop :=
  filename d = filename d' ∧ class d = class d' ∧ version d = version d'
  ∧ coeff0 d = coeff0 d' ∧ coeff1 d = coeff1 d' ∧ nwave d = nwave d'
  ∧ fluxunit d = fluxunit d'.

Definition same_lengths (d d' : infodict num) : Prop :=
  length <$> par_names d = length <$> par_names d'
  ∧ length <$> par_units d = length <$> par_units d'
  ∧ length <$> par_axistype d = length <$> par_axistype d'.

(** The elements of a baseline are numbers of one Python type, or are
    strings: an array made of them holds them unchanged. *)
Definition all_numbers (b : list (pyval num)) : Prop :=
  ∃ xs, b = VNum <$> xs ∧ ∀ x y, x ∈ xs → y ∈ xs → same_type x y = true.

Definition all_strings (b : list (pyval num)) : Prop :=
  ∃ ss, b = VStr <$> ss.

(** One parameter axis of a valid archive, as the data model has it: the
    axis is not empty and its baseline has its length; the baseline of a
    regular axis is the progression that starts at its first element with
    its first difference as step, computed as the decoder does; the
    baseline of an irregular axis holds numbers of one type, that of a
    labeled or named axis holds strings, and that of an index axis is
    [1, ..., L]. *)
Definition valid_axis (kind : string) (b : list (pyval num)) (L : nat)
  : Prop :=
  (1 ≤ L)%nat ∧ length b = L
  ∧ ((kind = "regular"
      ∧ ∃ x0 x1, b !! 0%nat = Some (VNum x0) ∧ b !! 1%nat = Some (VNum x1)
                 ∧ b = regular_baseline L one_float (nsub x1 x0) x0)
     ∨ (kind = "irregular" ∧ all_numbers b)
     ∨ (kind = "labeled" ∧ all_strings b)
     ∨ (kind = "named" ∧ all_strings b)
     ∨ (kind = "index" ∧ b = index_baseline L)).

(** A valid input of the encoder: the array has a wavelength axis and no
    empty axis, the file name has its class and version tokens, the
    wavelength grid is given, names and units, when given, cover the
    parameter axes, and there is one kind and one valid baseline per
    parameter axis. *)
Definition valid_archive (data : ndarray num)
    (baselines : list (list (pyval num))) (info : infodict num) : Prop :=
  shape data ≠ []
  ∧ Forall (λ n, (1 ≤ n)%nat) (shape data)
  ∧ (∃ name cv, filename info = Some name ∧ parse_name name = Ok cv)
  ∧ is_Some (coeff0 info) ∧ is_Some (coeff1 info)
  ∧ (∀ ns, par_names info = Some ns →
           (length (shape data) - 1 ≤ length ns)%nat)
  ∧ (∀ us, par_units info = Some us →
           (length (shape data) - 1 ≤ length us)%nat)
  ∧ length baselines = (length (shape data) - 1)%nat
  ∧ ∃ kinds,
      par_axistype info = Some kinds
      ∧ length kinds = (length (shape data) - 1)%nat
      ∧ ∀ i kind b L, kinds !! i = Some kind → baselines !! i = Some b →
                      shape data !! i = Some L → valid_axis kind b L.

(** The library keeps every card of the header [h]: each value reads back
    as it was set. *)
Definition cards_kept (lib : fits_library num)
    (h : gmap string (pyval num)) : Prop :=
  map_Forall (λ key v, card lib key v = Ok v) h.

(** The library stores what the encoder hands it for this input and gives
    it back unchanged: the file can be created, the array is read back as
    it is, and so is every card of the header the encoder builds. *)
Definition stored_exactly (lib : fits_library num) (data : ndarray num)
    (baselines : list (list (pyval num))) (info : infodict num) : Prop :=
  image lib data = Ok data
  ∧ (∀ name, filename info = Some name → creatable lib name = true)
  ∧ ∀ h, write_header data baselines info = Ok h → cards_kept lib h.

(** The FITS number of parameter axis [ipar] of an array of rank [r]. *)
Definition axis_number (r ipar : nat) : string :=
  str (Z.of_nat r - 1 + 1 - Z.of_nat ipar).

End Detection.

(** [bl'] has every baseline of [bl], possibly longer, and possibly more
    baselines. *)
Definition extends {num} (bl bl' : list (list (pyval num))) : Prop :=
  ∀ i b, bl !! i = Some b → ∃ b', bl' !! i = Some b' ∧ b `prefix_of` b'.

Definition axis_kinds : list string :=
  ["regular"; "irregular"; "labeled"; "named"; "index"].

(** ** Sample archives

    Concrete inputs over exact integers, on which the statements below are
    evaluated. *)

(** The header of a [write_header] that succeeded. *)
Definition header_of {num} (r : result (gmap string (pyval num)))
  : gmap string (pyval num) :=
  match r with
  | Ok h => h
  | Raise _ => ∅
  end.

(** The file system of a [write_ndArch] that succeeded. *)
Definition files_of {num} (r : result (gmap string (fitsfile num)))
  : gmap string (fitsfile num) :=
  match r with
  | Ok fs => fs
  | Raise _ => ∅
  end.

(** A single template of four wavelength pixels. *)
Definition flux1d : ndarray Z := mk_ndarray [4%nat] [10; 20; 30; 40].

Definition info1d : infodict Z :=
  mk_infodict (Some "ndArch-STAR-v1.fits") None None (Some (VNum 35))
    (Some (VNum 1)) None None None None (Some []).

Definition file1d : fitsfile Z :=
  mk_fitsfile (header_of (write_header flux1d [] info1d)) flux1d.

Definition disk1d : gmap string (fitsfile Z) :=
  {[ "ndArch-STAR-v1.fits" := file1d ]}.

(** The same template in a file whose header has only the structural
    cards. *)
Definition disk_bare : gmap string (fitsfile Z) :=
  {[ "ndArch-STAR-v1.fits" := mk_fitsfile (PrimaryHDU flux1d) flux1d ]}.

(** A container without data: a primary HDU with NAXIS = 0 and the
    structural cards only. *)
Definition no_data : ndarray Z := mk_ndarray [] [].

Definition disk_no_data : gmap string (fitsfile Z) :=
  {[ "ndArch-STAR-v1.fits" := mk_fitsfile (PrimaryHDU no_data) no_data ]}.

(** The info dictionary [read_ndArch] returns for [disk1d], whose flux unit
    is the empty string. *)
Definition info1d_empty_unit : infodict Z :=
  mk_infodict (Some "ndArch-STAR-v1.fits") (Some "STAR") (Some "v1")
    (Some (VNum 35)) (Some (VNum 1)) (Some (VNum 4)) (Some (VStr ""))
    (Some []) (Some []) (Some []).

(** What a [read_ndArch] that succeeded returned. *)
Definition baselines_of {num}
    (r : result (ndarray num * list (list (pyval num)) * infodict num))
  : list (list (pyval num)) :=
  match r with
  | Ok (_, bl, _) => bl
  | Raise _ => []
  end.

Definition info_of {num}
    (r : result (ndarray num * list (list (pyval num)) * infodict num))
  : option (infodict num) :=
  match r with
  | Ok (_, _, info) => Some info
  | Raise _ => None
  end.

(** An archive with one parameter axis of each kind. *)
Definition flux5 : ndarray Z :=
  mk_ndarray [3%nat; 2%nat; 2%nat; 2%nat; 2%nat; 4%nat] [].

Definition kinds5 : list string :=
  ["regular"; "irregular"; "labeled"; "named"; "index"].

Definition baselines5 : list (list (pyval Z)) :=
  [ [VNum 10; VNum 12; VNum 14];
    [VNum 1; VNum 5];
    [VStr "cool"; VStr "hot"];
    [VStr "Vega"; VStr "Sirius"];
    [VNum 1; VNum 2] ].

Definition info5 : infodict Z :=
  mk_infodict (Some "ndArch-STAR-v1.fits") None None (Some (VNum 35))
    (Some (VNum 1)) None (Some (VStr "erg/s")) None None (Some kinds5).

Definition file5 : fitsfile Z :=
  mk_fitsfile (header_of (write_header flux5 baselines5 info5)) flux5.

Definition disk5 : gmap string (fitsfile Z) :=
  {[ "ndArch-STAR-v1.fits" := file5 ]}.

(** The same file without the keyword of the second pixel of its
    irregular axis. *)
Definition file5_partial : fitsfile Z :=
  mk_fitsfile (delete "PV5_2" (hdr file5)) flux5.

Definition disk5_partial : gmap string (fitsfile Z) :=
  {[ "ndArch-STAR-v1.fits" := file5_partial ]}.

(** A regular axis whose baseline increases but is no progression, over
    exact integers, and the progression 0.1, 0.2, 0.3 in binary64. *)
Definition flux_reg : ndarray Z := mk_ndarray [3%nat; 2%nat] [].

Definition info_reg : infodict Z :=
  mk_infodict (Some "ndArch-STAR-v1.fits") None None (Some (VNum 35))
    (Some (VNum 1)) None None None None (Some ["regular"]).

Definition tenth : float := 0x1.999999999999ap-4%float.
Definition two_tenths : float := 0x1.999999999999ap-3%float.
Definition three_tenths : float := 0x1.3333333333333p-2%float.
Definition three_tenths_up : float := 0x1.3333333333334p-2%float.

(** An axis of two elements with a baseline of five, and an info
    dictionary that marks it as irregular. *)
Definition flux2 : ndarray Z := mk_ndarray [2%nat; 3%nat] [1; 2; 3; 4; 5; 6].

Definition info2 : infodict Z :=
  mk_infodict (Some "ndArch-STAR-v1.fits") None None (Some (VNum 35))
    (Some (VNum 1)) None None None None (Some ["irregular"]).

(** A result file that is already on disk, and the writer for it built
    with [clobber=False]. *)
Definition sample_zpick : zpicker := mk_zpicker 7443 56000 [12].

Definition sample_makedirs (d : string) (w : world (hdulist:=string))
  : world (hdulist:=string) * result unit :=
  (mk_world (files w) ({[ d ]} ∪ dirs w) (environ w), Ok tt).

Definition sample_build (z : zpicker) (now : string) : result string :=
  Ok ("results of " +:+ now).

Definition sample_world : world (hdulist:=string) :=
  mk_world {[ "out/redmonster-7443-56000-012.fits" := "results of before";
              "out/redmonster-7443-56000.fits" := "results of before" ]}
           {[ "out" ]} ∅.

Definition sample_writer : Write_Redmonster (hdulist:=string) :=
  mk_writer false sample_zpick (Some "out") None.

(** What [read_ndArch] returns for [disk5] and for [disk5_partial]. *)
Definition info5_read (kinds : list string) : infodict Z :=
  mk_infodict (Some "ndArch-STAR-v1.fits") (Some "STAR") (Some "v1")
    (Some (VNum 35)) (Some (VNum 1)) (Some (VNum 4)) (Some (VStr "erg/s"))
    (Some (replicate 5 (VStr ""))) (Some (replicate 5 (VStr "")))
    (Some kinds).

Definition baselines5_partial : list (list (pyval Z)) :=
  [ [VNum 10; VNum 12; VNum 14];
    [VNum 1; VNum 2];
    [VStr "cool"; VStr "hot"];
    [VStr "Vega"; VStr "Sirius"];
    [VNum 1; VNum 2] ].

Definition kinds5_partial : list string :=
  ["regular"; "index"; "labeled"; "named"; "index"].

(** ** A sample library and sample archives over the numbers of Python *)

(** The characters a FITS card can hold: printable ASCII. *)
Definition printable (a : ascii) : bool :=
  let n := nat_of_ascii a in (32 <=? n)%nat && (n <=? 126)%nat.

(** [s.rstrip()]. *)
Definition rstrip (s : string) : string :=
  String.rev (lstrip (String.rev s)).

(** A library for the samples.  Its cards hold a string without its
    trailing blanks and reject one with a character that is not printable;
    they reject a float that is not finite and hold any other number, and a
    boolean, as it is: a card written with all the digits of the number,
    which is what the FITS library does for integers and for the floats of
    the samples.  Arrays are read back as they are, and a file can be
    created in the working directory, which has no directories in it. *)
Definition sample_card (key : string) (v : pyval pynum)
  : result (pyval pynum) :=
  match v with
  | VStr s =>
      if forallb printable (list_ascii_of_string s) then Ok (VStr (rstrip s))
      else Raise ValueError
  | VNum (PFloat x) =>
      if PrimFloat.is_finite x then Ok v else Raise ValueError
  | _ => Ok v
  end.

Definition sample_library : fits_library pynum :=
  mk_library sample_card Ok (free_of "/").

(** An archive with one parameter axis of each kind: the regular axis has
    the floats 10, 12, 14, the irregular axis the floats 1 and 5.5, and the
    index axis the integers 1 and 2. *)
Definition flux_py : ndarray pynum :=
  mk_ndarray [3%nat; 2%nat; 2%nat; 2%nat; 2%nat; 2%nat]
    (replicate 96 (PFloat 0x1.8p+0%float)).

Definition baselines_py : list (list (pyval pynum)) :=
  [ [VNum (PFloat 0x1.4p+3%float); VNum (PFloat 0x1.8p+3%float);
     VNum (PFloat 0x1.cp+3%float)];
    [VNum (PFloat 0x1p+0%float); VNum (PFloat 0x1.6p+2%float)];
    [VStr "cool"; VStr "hot"];
    [VStr "Vega"; VStr "Sirius"];
    [VNum (PInt 1); VNum (PInt 2)] ].

Definition info_py : infodict pynum :=
  mk_infodict (Some "ndArch-STAR-v1.fits") None None
    (Some (VNum (PFloat 0x1.cp+1%float)))
    (Some (VNum (PFloat 0x1.a36e2eb1c432dp-14%float)))
    None (Some (VStr "erg/s")) None None (Some kinds5).

(** An archive with one regular axis of three elements. *)
Definition flux_reg_py : ndarray pynum :=
  mk_ndarray [3%nat; 2%nat] (replicate 6 (PFloat 0x1.8p+0%float)).

Definition info_reg_py : infodict pynum :=
  mk_infodict (Some "ndArch-STAR-v1.fits") None None
    (Some (VNum (PFloat 0x1.cp+1%float)))
    (Some (VNum (PFloat 0x1.a36e2eb1c432dp-14%float)))
    None None None None (Some ["regular"]).

(** ** Vocabulary of the further properties *)

Section MoreVocabulary.
Context {num : Type} `{Numeric num}.

(** A scalar that arithmetic accepts: anything but a string. *)
Definition numeric (v : pyval num) : bool :=
  match v with
  | VStr _ => false
  | _ => true
  end.

(** The values of the regular triple of an axis that are present are
    numeric. *)
Definition regular_numeric (h : gmap string (pyval num)) (ax : string)
  : bool :=
  forallb (fun pre => match h !! (pre +:+ ax) with
                      | Some v => numeric v
                      | None => true
                      end)
          ["CRPIX"; "CDELT"; "CRVAL"].

(** Every parameter axis of the file that has the regular triple has it
    with numeric values. *)
Definition decodable (f : fitsfile num) : bool :=
  forallb (fun i =>
             let ax := axis_number (length (shape (dat f))) i in
             negb (regular_present (hdr f) ax) || regular_numeric (hdr f) ax)
          (seq 0 (length (shape (dat f)) - 1)).

End MoreVocabulary.

(** The kind the encoder acts on: the stripped kind when it is one of the
    four kinds that have keywords, and index for any other string. *)
Definition kind_class (kind : string) : string :=
  if String.eqb (strip kind) "regular" then "regular"
  else if String.eqb (strip kind) "irregular" then "irregular"
  else if String.eqb (strip kind) "labeled" then "labeled"
  else if String.eqb (strip kind) "named" then "named"
  else "index".

(** [sub in s]: [sub] occurs somewhere in [s]. *)
Fixpoint occurs (sub s : string) : bool :=
  String.prefix sub s
  || match s with
     | EmptyString => false
     | String _ s' => occurs sub s'
     end.

(** ** Write_Redmonster (io.py)

    The older writer has the methods of the newer one, with [clobber=False]
    as the default of its constructor and without the statement that sets
    [self.clobber] in the method that writes a fiber file. *)

Section WriterV1.
Context {hdulist : Type}.
Variable build_hdulist : zpicker → string → result hdulist.

(** [write_fiberid] (io.py, lines 286-310). *)
Definition write_fiberid (now : string)
    (self : Write_Redmonster (hdulist:=hdulist)) (w : world (hdulist:=hdulist))
  : Write_Redmonster (hdulist:=hdulist) * world (hdulist:=hdulist)
    * result unit :=
  match create_hdulist build_hdulist now self with
  | Raise e => (self, w, Raise e)
  | Ok (self, h) =>
      let z := zpick self in
      let r :=
        if clobber self then
          match dest self with
          | Some d =>
              with_name (fiber_name z) w (fun nm =>
                hdul_writeto (path_join d nm) (clobber self) h w)
          | None =>
              with_name (fiber_name z) w (fun nm =>
                match hdul_writeto nm (clobber self) h w with
                | (w', Ok _) => (w', Raise TypeError)
                | (w', Raise e) => (w', Raise e)
                end)
          end
        else
          match dest self with
          | Some d =>
              with_name (fiber_name z) w (fun nm =>
                if path_exists (path_join d nm) w then
                  with_name (fiber_name_stamped z now) w (fun snm =>
                    hdul_writeto (path_join d snm) false h w)
                else hdul_writeto (path_join d nm) false h w)
          | None =>
              with_name (fiber_name z) w (fun nm =>
                if path_exists nm w then
                  with_name (fiber_name_stamped z now) w (fun snm =>
                    hdul_writeto snm false h w)
                else hdul_writeto nm false h w)
          end in
      (self, r.1, r.2)
  end.

End WriterV1.

(** ** Reading the names of result files (merge_fibers, merge_plates,
    combine_fibers) *)

(** [s[i:j]] for bounds that are not negative. *)
Definition slice (s : string) (i j : nat) : string := substring i (j - i) s.

(** The value of a string of decimal digits. *)
Fixpoint digits_value (acc : Z) (s : string) : Z :=
  match s with
  | EmptyString => acc
  | String a s' =>
      digits_value (10 * acc + (Z.of_nat (nat_of_ascii a) - 48)) s'
  end.

(** [int(s)] on a string: blanks around the number, an optional sign and
    decimal digits; [None] stands for the [ValueError] of any other
    string. *)
Definition py_int (s : string) : option Z :=
  let t := strip s in
  let signed :=
    match t with
    | String "-" d => (true, d)
    | String "+" d => (false, d)
    | _ => (false, t)
    end in
  if negb (String.eqb signed.2 "") && all_digits signed.2
  then Some (if signed.1 then - digits_value 0 signed.2
             else digits_value 0 signed.2)
  else None.

(** [int(fiberfile[22:25])]: the fiber number [merge_fibers] and
    [combine_fibers] take from the base name of a fiber file. *)
Definition fiberid_of_name (fiberfile : string) : option Z :=
  py_int (slice fiberfile 22 25).

(** [basename(x)[16:21]]: the MJD [merge_plates] takes from the base name
    of a fiber file. *)
Definition mjd_of_name (x : string) : string := slice x 16 21.

(** ** The list of plates of merge_plates (io2.py, lines 278-283)

    After sorting the names found in the directory of the reduction,
    [merge_plates] removes the names that end in [.fits] from the list
    while it iterates over it. *)

(** [listitem[-5:] == '.fits']. *)
Definition is_fits (listitem : string) : bool :=
  String.eqb (substring (String.length listitem - 5) 5 listitem) ".fits".

(** [l.remove(x)]: the list without the first element equal to [x];
    [None] stands for the [ValueError] raised when there is none. *)
Fixpoint list_remove (x : string) (l : list string) : option (list string) :=
  match l with
  | [] => None
  | y :: l' => if String.eqb y x then Some l' else cons y <$> list_remove x l'
  end.

(** The loop [for listitem in plates: if listitem[-5:] == '.fits':
    plates.remove(listitem)].  The iterator of a list holds an index: each
    pass takes the element at the index from the list as it is then, and
    the loop ends when the index reaches the length.  Every pass advances
    the index, so that [fuel] above [length plates - idx] is never used
    up. *)
Fixpoint filter_loop (fuel : nat) (plates : list string) (idx : nat)
  : option (list string) :=
  match fuel with
  | O => None
  | S fuel' =>
      match plates !! idx with
      | None => Some plates
      | Some listitem =>
          if is_fits listitem then
            plates' ← list_remove listitem plates ;
            filter_loop fuel' plates' (S idx)
          else filter_loop fuel' plates (S idx)
      end
  end.

Definition remove_fits (plates : list string) : option (list string) :=
  filter_loop (S (length plates)) plates 0.

(** The list left by a loop that does not examine the element that
    follows one it removed. *)
Fixpoint keep_after_removal (l : list string) : list string :=
  match l with
  | [] => []
  | x :: r =>
      if is_fits x then
        match r with
        | [] => []
        | y :: r' => y :: keep_after_removal r'
        end
      else x :: keep_after_removal r
  end.

(** No two neighbours in the list end in [.fits]. *)
Fixpoint no_adjacent_fits (l : list string) : bool :=
  match l with
  | [] => true
  | x :: r =>
      match r with
      | [] => true
      | y :: _ => negb (is_fits x && is_fits y) && no_adjacent_fits r
      end
  end.

(** * Properties *)

(** ** Results and loops *)

Lemma bind_Ok {A B} (r : result A) (k : A → result B) b :
  bind r k = Ok b ↔ ∃ a, r = Ok a ∧ k a = Ok b.
Proof.
  destruct r as [a|e]; simpl; split.
  - eauto.
  - by intros (? & [= <-] & ?).
  - done.
  - by intros (? & ? & ?).
Qed.

Lemma bind_Raise {A B} (r : result A) (k : A → result B) e :
  bind r k = Raise e ↔ r = Raise e ∨ ∃ a, r = Ok a ∧ k a = Raise e.
Proof.
  destruct r as [a|e']; simpl; split.
  - eauto.
  - intros [?|(? & [= <-] & ?)]; done.
  - intros [= ->]; by left.
  - intros [[= ->]|(? & ? & ?)]; done.
Qed.

(** Splits a hypothesis [bind r k = Ok b] into its two halves. *)
Tactic Notation "inv_bind" hyp(H) "as" ident(a) ident(Ha) :=
  apply bind_Ok in H as (a & Ha & H).
Tactic Notation "inv_bind" hyp(H) :=
  let a := fresh "a" in
  let Ha := fresh "Ha" in
  apply bind_Ok in H as (a & Ha & H).

Lemma raises_python_bind {A B} (r : result A) (k : A → result B) :
  raises_python r → (∀ a, r = Ok a → raises_python (k a)) →
  raises_python (bind r k).
Proof. destruct r; simpl; auto. Qed.

Lemma for_each_app {S I} (f : S → I → result S) s l1 l2 :
  for_each f s (l1 ++ l2) = (s' <- for_each f s l1 ;; for_each f s' l2).
Proof.
  revert s. induction l1 as [|i l1 IH]; intros s; simpl; [done|].
  destruct (f s i); simpl; auto.
Qed.

Lemma for_each_invariant {S I} (f : S → I → result S) (Φ : S → Prop) l s s' :
  (∀ s i s', i ∈ l → Φ s → f s i = Ok s' → Φ s') →
  Φ s → for_each f s l = Ok s' → Φ s'.
Proof.
  revert s. induction l as [|i l IH]; intros s Hf Hs Hl; simpl in Hl.
  - by simplify_eq.
  - inv_bind Hl. eapply IH; [|eapply Hf; [|done..]|done].
    + intros. eapply Hf; [|done..]. by right.
    + by left.
Qed.

Lemma for_each_ext {S I} (f g : S → I → result S) l s :
  (∀ s i, i ∈ l → f s i = g s i) → for_each f s l = for_each g s l.
Proof.
  revert s. induction l as [|i l IH]; intros s Hfg; simpl; [done|].
  rewrite Hfg by left. destruct (g s i); simpl; [|done].
  apply IH. intros. apply Hfg. by right.
Qed.

(** A loop that runs to the end ran each of its passes. *)
Lemma for_each_pass {S I} (f : S → I → result S) l s s' i :
  for_each f s l = Ok s' → i ∈ l →
  ∃ l1 l2 sb sa, l = l1 ++ i :: l2 ∧ for_each f s l1 = Ok sb ∧
                 f sb i = Ok sa ∧ for_each f sa l2 = Ok s'.
Proof.
  intros Hl Hi. apply list_elem_of_split in Hi as (l1 & l2 & ->).
  rewrite for_each_app in Hl. inv_bind Hl. simpl in Hl. inv_bind Hl.
  by exists l1, l2, a, a0.
Qed.

(** A loop each of whose passes succeeds on states satisfying an invariant
    runs to the end. *)
Lemma for_each_total {S I} (f : S → I → result S) (Φ : S → Prop) l s :
  (∀ s i, i ∈ l → Φ s → ∃ s', f s i = Ok s' ∧ Φ s') →
  Φ s → ∃ s', for_each f s l = Ok s' ∧ Φ s'.
Proof.
  revert s. induction l as [|i l IH]; intros s Hf Hs; simpl; [eauto|].
  destruct (Hf s i) as (s1 & -> & Hs1); [by left|done|]. simpl.
  apply IH; [|done]. intros. apply Hf; [by right|done].
Qed.

(** A loop with a pass that fails on every state does not run to the end. *)
Lemma for_each_fails {S I} (f : S → I → result S) l s i :
  i ∈ l → (∀ s, ∃ e, f s i = Raise e) → ∃ e, for_each f s l = Raise e.
Proof.
  intros Hi Hf. revert s. induction Hi as [i l|i j l Hi IH]; intros s; simpl.
  - destruct (Hf s) as [e ->]. eauto.
  - destruct (f s j); simpl; [|eauto]. by apply IH.
Qed.

Lemma for_each_mono {S I} (f g : S → I → result S) l s s' :
  (∀ s i s', i ∈ l → f s i = Ok s' → g s i = Ok s') →
  for_each f s l = Ok s' → for_each g s l = Ok s'.
Proof.
  revert s. induction l as [|i l IH]; intros s Hfg Hl; simpl in *; [done|].
  inv_bind Hl as s1 Hs1. rewrite (Hfg s i s1) by (done || by left). simpl.
  apply IH; [|done]. intros. apply Hfg; [by right|done].
Qed.

Lemma bind_fails {A B} (r : result A) (k : A → result B) :
  (∀ a, ∃ e, k a = Raise e) → ∃ e, bind r k = Raise e.
Proof. intros Hk. destruct r as [a|e]; simpl; eauto. Qed.

Lemma forallb_false {A} (p : A → bool) l :
  forallb p l = false → ∃ x, x ∈ l ∧ p x = false.
Proof.
  induction l as [|a l IH]; simpl; [done|].
  destruct (p a) eqn:Ha; simpl.
  - intros (x & Hx & Hp)%IH. exists x. split; [by right|done].
  - intros _. exists a. split; [by left|done].
Qed.

(** A loop whose passes can fail with one exception only, and one of whose
    passes does fail, fails with that exception. *)
Lemma for_each_raises {S I} (f : S → I → result S) (Φ : S → Prop) e l s i :
  (∀ s j, j ∈ l → Φ s → (∃ s', f s j = Ok s' ∧ Φ s') ∨ f s j = Raise e) →
  i ∈ l → (∀ s, Φ s → f s i = Raise e) →
  Φ s → for_each f s l = Raise e.
Proof.
  intros Hf Hi Hfi. revert s.
  induction Hi as [i l|i j l Hi IH]; intros s Hs; simpl.
  - by rewrite Hfi.
  - destruct (Hf s j) as [(s' & -> & Hs') | ->]; [by left|done| |done].
    simpl. apply IH; try done. intros. apply Hf; [by right|done].
Qed.

Lemma raises_python_for_each {S I} (f : S → I → result S) l s :
  (∀ s i, raises_python (f s i)) → raises_python (for_each f s l).
Proof.
  intros Hf. revert s. induction l as [|i l IH]; intros s; simpl; [done|].
  apply raises_python_bind; auto.
Qed.

Lemma index_Ok {A} (l : list A) i x : index l i = Ok x ↔ l !! i = Some x.
Proof. unfold index. destruct (l !! i); naive_solver. Qed.

Lemma index_prefix {A} (l l' : list A) i x :
  l `prefix_of` l' → index l i = Ok x → index l' i = Ok x.
Proof.
  rewrite !index_Ok. intros [k ->] Hi. by apply lookup_app_l_Some.
Qed.

Lemma raises_python_index {A} (l : list A) i : raises_python (index l i).
Proof. unfold index. by destruct (l !! i). Qed.

Lemma raises_python_py_index {A} (l : list A) i : raises_python (py_index l i).
Proof.
  unfold py_index. case_match; [done|]. apply raises_python_index.
Qed.

Lemma raises_python_item {A} key (o : option A) : raises_python (item key o).
Proof. by destruct o. Qed.

(** A negative index within range counts from the end. *)
Lemma py_index_neg {A} (l : list A) (k : nat) :
  (1 ≤ k ≤ length l)%nat →
  py_index l (- Z.of_nat k) = index l (length l - k).
Proof.
  intros Hk. unfold py_index.
  assert ((- Z.of_nat k <? 0) = true) as -> by (apply Z.ltb_lt; lia).
  assert (((- Z.of_nat k + Z.of_nat (length l) <? 0)
           || (Z.of_nat (length l) <=? - Z.of_nat k + Z.of_nat (length l)))
          = false) as ->.
  { apply orb_false_iff; split; [apply Z.ltb_ge|apply Z.leb_gt]; lia. }
  f_equal. lia.
Qed.

Lemma py_index_last {A} (l : list A) x : py_index (l ++ [x]) (-1) = Ok x.
Proof.
  rewrite (py_index_neg _ 1) by (rewrite length_app; simpl; lia).
  apply index_Ok. rewrite length_app. simpl.
  replace (length l + 1 - 1)%nat with (length l) by lia.
  by rewrite list_lookup_middle.
Qed.

Lemma py_index_last_but_one {A} (l : list A) x y :
  py_index (l ++ [x; y]) (-2) = Ok x.
Proof.
  rewrite (py_index_neg _ 2) by (rewrite length_app; simpl; lia).
  apply index_Ok. rewrite length_app. simpl.
  replace (length l + 2 - 2)%nat with (length l) by lia.
  by rewrite list_lookup_middle.
Qed.

Lemma py_index_short {A} (x : A) : py_index [x] (-2) = Raise IndexError.
Proof. done. Qed.

(** ** Decimal numerals and keywords *)

Lemma pretty_N_char_digit x : is_digit (pretty_N_char x) = true.
Proof. unfold pretty_N_char. by repeat case_match. Qed.

Lemma pretty_N_go_digits x s :
  all_digits s = true → all_digits (pretty_N_go x s) = true.
Proof.
  revert s. induction (N.lt_wf_0 x) as [x _ IH]; intros s Hs.
  destruct (decide (x = 0)%N) as [->|Hx].
  - by rewrite pretty_N_go_0.
  - rewrite pretty_N_go_step by lia. apply IH.
    + apply N.div_lt; lia.
    + simpl. by rewrite pretty_N_char_digit.
Qed.

Lemma pretty_N_go_nonempty x s : (0 < x)%N → pretty_N_go x s ≠ "".
Proof.
  revert s. induction (N.lt_wf_0 x) as [x _ IH]; intros s Hx.
  rewrite pretty_N_go_step by done.
  destruct (decide (x `div` 10 = 0)%N) as [->|Hd].
  - by rewrite pretty_N_go_0.
  - apply IH; [apply N.div_lt; lia | by apply N.neq_0_lt_0].
Qed.

Lemma str_digits z : 0 ≤ z → all_digits (str z) = true.
Proof.
  intros Hz. unfold str, pretty, pretty_Z. destruct z as [|p|p]; [done| |lia].
  unfold pretty, pretty_positive, pretty, pretty_N.
  case_decide; [done|]. by apply pretty_N_go_digits.
Qed.

Lemma str_nonempty z : str z ≠ "".
Proof.
  unfold str, pretty, pretty_Z. destruct z as [|p|p]; [done| |done].
  unfold pretty, pretty_positive, pretty, pretty_N.
  case_decide; [done|]. apply pretty_N_go_nonempty. lia.
Qed.

Lemma str_inj z z' : str z = str z' → z = z'.
Proof. apply pretty_Z_inj. Qed.

(** The first character of a decimal numeral is a digit. *)
Lemma str_head z : 0 ≤ z → ∃ a s, str z = String a s ∧ is_digit a = true ∧ all_digits s = true.
Proof.
  intros Hz. pose proof (str_digits z Hz) as Hd. pose proof (str_nonempty z) as Hn.
  destruct (str z) as [|a s]; [done|]. simpl in Hd. apply andb_true_iff in Hd as [??].
  eauto.
Qed.

Lemma underscore_split a a' b b' :
  all_digits a = true → all_digits a' = true →
  a +:+ "_" +:+ b = a' +:+ "_" +:+ b' → a = a' ∧ b = b'.
Proof.
  revert a'. induction a as [|c a IH]; intros [|c' a'] Ha Ha' Heq; simpl in *.
  - by simplify_eq.
  - by simplify_eq.
  - by simplify_eq.
  - apply andb_true_iff in Ha as [_ Ha]. apply andb_true_iff in Ha' as [_ Ha'].
    injection Heq as -> Heq. destruct (IH a' Ha Ha' Heq) as [-> ->]. done.
Qed.

Lemma pixel_key_inj pre z z' j j' :
  0 ≤ z → 0 ≤ z' →
  pixel_key pre (str z) j = pixel_key pre (str z') j' → z = z' ∧ j = j'.
Proof.
  intros Hz Hz' Heq. unfold pixel_key in Heq.
  apply (inj (String.app pre)) in Heq.
  apply underscore_split in Heq as [Ha Hb]; [|by apply str_digits..].
  apply str_inj in Ha, Hb. lia.
Qed.

(** ** File names *)

Lemma split_nonempty c s : split c s ≠ [].
Proof.
  destruct s as [|a s]; simpl; [done|].
  destruct (Ascii.eqb a c); [done|]. by destruct (split c s).
Qed.

Lemma split_free c s : free_of c s = true → split c s = [s].
Proof.
  induction s as [|a s IH]; simpl; [done|].
  intros [Ha Hs]%andb_true_iff. apply negb_true_iff in Ha. rewrite Ha.
  by rewrite IH.
Qed.

(** Splitting distributes over a separator. *)
Lemma split_sep c p s :
  split c (p +:+ String c s) = split c p ++ split c s.
Proof.
  induction p as [|a p IH]; simpl.
  - by rewrite Ascii.eqb_refl.
  - destruct (Ascii.eqb a c); [by rewrite IH|].
    rewrite IH. pose proof (split_nonempty c p).
    by destruct (split c p).
Qed.

Lemma prefix_short sub t :
  (String.length t < String.length sub)%nat → String.prefix sub t = false.
Proof.
  revert t. induction sub as [|a sub IH]; intros [|b t] Hlen; simpl in *;
    try lia; try done.
  destruct (ascii_dec a b); [|done]. apply IH. lia.
Qed.

Lemma prefix_app sub t : String.prefix sub (sub +:+ t) = true.
Proof.
  induction sub as [|a sub IH]; simpl; [by destruct t|].
  by destruct (ascii_dec a a).
Qed.

Lemma prefix_refl s : String.prefix s s = true.
Proof.
  induction s as [|a s IH]; simpl; [done|]. by destruct (ascii_dec a a).
Qed.

Lemma rfind_from_short sub t i :
  (String.length t < String.length sub)%nat → rfind_from sub t i = -1.
Proof.
  revert i. induction t as [|b t IH]; intros i Hlen; cbn [rfind_from].
  - by rewrite prefix_short.
  - rewrite IH by (simpl in Hlen; lia).
    replace (0 <=? -1) with false by done. by rewrite prefix_short.
Qed.

Lemma rfind_from_self sub i : 0 ≤ i → rfind_from sub sub i = i.
Proof.
  intros Hi. destruct sub as [|a sub]; [done|].
  cbn [rfind_from]. rewrite rfind_from_short by (simpl; lia).
  replace (0 <=? -1) with false by done.
  by rewrite prefix_refl.
Qed.

(** The last occurrence of a suffix is the suffix itself. *)
Lemma rfind_from_suffix sub s i :
  0 ≤ i →
  rfind_from sub (s +:+ sub) i = i + Z.of_nat (String.length s).
Proof.
  revert i. induction s as [|a s IH]; intros i Hi.
  - simpl. rewrite rfind_from_self by done. lia.
  - change (String a s +:+ sub) with (String a (s +:+ sub)).
    cbn [rfind_from String.length]. rewrite IH by lia.
    assert ((0 <=? i + 1 + Z.of_nat (String.length s)) = true) as ->
      by (apply Z.leb_le; lia).
    lia.
Qed.

Lemma substring_app s t : substring 0 (String.length s) (s +:+ t) = s.
Proof.
  induction s as [|a s IH]; simpl; [by destruct t|by rewrite IH].
Qed.

Lemma length_append s t :
  String.length (s +:+ t) = (String.length s + String.length t)%nat.
Proof.
  induction s as [|a s IH]; [done|].
  change (String a s +:+ t) with (String a (s +:+ t)).
  cbn [String.length]. rewrite IH. lia.
Qed.

Lemma append_assoc s t u : (s +:+ t) +:+ u = s +:+ (t +:+ u).
Proof.
  induction s as [|a s IH]; [done|].
  change ((String a s +:+ t) +:+ u) with (String a ((s +:+ t) +:+ u)).
  by rewrite IH.
Qed.

(** The tokens of a name that ends in a class and a version. *)
Lemma split_class_version pre cls ver :
  free_of "-" cls = true → free_of "-" ver = true →
  (pre = "" ∨ ∃ p, pre = p +:+ "-") →
  ∃ l, split "-" (pre +:+ cls +:+ "-" +:+ ver) = l ++ [cls; ver].
Proof.
  intros Hc Hv Hpre.
  assert (split "-" (cls +:+ "-" +:+ ver) = [cls; ver]) as Hcv.
  { change ("-" +:+ ver) with (String "-" ver).
    by rewrite split_sep, !split_free. }
  destruct Hpre as [->|[p ->]].
  - exists []. exact Hcv.
  - exists (split "-" p). rewrite append_assoc.
    change ("-" +:+ cls +:+ "-" +:+ ver)
      with (String "-" (cls +:+ "-" +:+ ver)).
    by rewrite split_sep, Hcv.
Qed.

Lemma root_of_fits root :
  slice_to (root +:+ ".fits") (rfind (root +:+ ".fits") ".fits") = root.
Proof.
  unfold rfind. rewrite rfind_from_suffix by done.
  unfold slice_to. rewrite length_append. simpl String.length.
  assert ((0 + Z.of_nat (String.length root) <? 0) = false) as ->
    by (apply Z.ltb_ge; lia).
  replace (Z.to_nat _) with (String.length root) by lia.
  apply substring_app.
Qed.

Lemma parse_name_fits root :
  parse_name (root +:+ ".fits")
  = (c <- py_index (split "-" root) (-2) ;;
     v <- py_index (split "-" root) (-1) ;; Ok (c, v)).
Proof. unfold parse_name. by rewrite root_of_fits. Qed.

Lemma raises_python_parse_name fname : raises_python (parse_name fname).
Proof.
  unfold parse_name. apply raises_python_bind; [apply raises_python_py_index|].
  intros. apply raises_python_bind; [apply raises_python_py_index|done].
Qed.

(** The only failure of the name parse is the index error of the token
    lookup. *)
Lemma parse_name_Raise fname e : parse_name fname = Raise e → e = IndexError.
Proof.
  unfold parse_name, py_index, index. intros He.
  repeat (case_match; simplify_eq/=); done.
Qed.

(** ** Ownership of keywords *)

(** Breaks a membership in a list given by its elements into its cases. *)
Ltac elem_cases H :=
  repeat (apply elem_of_cons in H as [?|H]); [..|by apply elem_of_nil in H];
  simplify_eq.

(** Two keywords that differ in their fixed prefixes are different. *)
Ltac key_ne :=
  let Heq := fresh "Heq" in
  intros Heq; cbv [String.append] in Heq; discriminate.

(** No keyword describes two axes. *)
Lemma owned_inj z z' k :
  0 ≤ z → 0 ≤ z' → owned (str z) k → owned (str z') k → z = z'.
Proof.
  intros Hz Hz' [pre Hpre|pre j Hpre] Hk; inv Hk;
    match goal with
    | Hin : _ ∈ _ |- _ => elem_cases Hin
    end; elem_cases Hpre; unfold pixel_key in *; simplify_eq/=;
    try (by apply str_inj).
  all: match goal with
       | Heq : _ +:+ "_" +:+ _ = _ +:+ "_" +:+ _ |- _ =>
           apply underscore_split in Heq as [Heq _];
           [by apply str_inj|by apply str_digits..]
       end.
Qed.

(** A keyword of an axis starts with C or P, or with N and a digit. *)
Lemma owned_head z k :
  0 ≤ z → owned (str z) k →
  ∃ c1 c2 rest, k = String c1 (String c2 rest)
    ∧ (c1 = "C"%char ∨ c1 = "P"%char ∨ (c1 = "N"%char ∧ is_digit c2 = true)).
Proof.
  intros Hz Hk. destruct (str_head z Hz) as (a & s0 & Hs & Ha & _).
  destruct Hk as [pre Hpre|pre j Hpre]; elem_cases Hpre;
    unfold pixel_key; rewrite Hs; simpl; eexists _, _, _;
    (split; [reflexivity|]); auto.
Qed.

(** The keywords of an axis are none of the structural keywords of the
    primary HDU, nor the flux unit. *)
Lemma owned_not_structural z k :
  0 ≤ z → owned (str z) k →
  (k ∉ ["SIMPLE"; "BITPIX"; "NAXIS"; "EXTEND"; "BUNIT"])
  ∧ (∀ s, k ≠ "NAXIS" +:+ s).
Proof.
  intros Hz Hk. destruct (owned_head z k Hz Hk) as (c1 & c2 & rest & -> & Hc).
  split.
  - intros Hin. elem_cases Hin; simplify_eq/=;
      destruct Hc as [?|[?|[? Hd]]]; try done; by vm_compute in Hd.
  - intros s Heq. cbv [String.append] in Heq. simplify_eq.
    destruct Hc as [?|[?|[? Hd]]]; try done; by vm_compute in Hd.
Qed.

(** The keywords of a parameter axis are not those of the wavelength
    axis. *)
Lemma owned_not_axis1 z k pre :
  2 ≤ z → owned (str z) k →
  pre ∈ ["CNAME"; "CUNIT"; "CRPIX"; "CRVAL"; "CDELT"] → k ≠ pre +:+ "1".
Proof.
  intros Hz Hk Hpre ->. elem_cases Hpre;
    inversion Hk as [pre' Hpre' Heq|pre' j Hpre' Heq]; elem_cases Hpre';
    unfold pixel_key in *; try (cbv [String.append] in *; simplify_eq);
    match goal with
    | Heq : str z = "1" |- _ => apply (str_inj z 1) in Heq; lia
    end.
Qed.

Lemma pixel_key_inj_pixel pre ax j j' :
  pixel_key pre ax j = pixel_key pre ax j' → j = j'.
Proof.
  unfold pixel_key. intros Heq.
  apply (inj (String.app pre)), (inj (String.app ax)) in Heq.
  simplify_eq/=. lia.
Qed.

(** The three families of an axis are disjoint from each other and from
    the scalar keywords. *)
Lemma pixel_key_family pre pre' z j j' :
  0 ≤ z → pre ∈ ["PV"; "PS"; "N"] → pre' ∈ ["PV"; "PS"; "N"] →
  pixel_key pre (str z) j = pixel_key pre' (str z) j' → pre = pre'.
Proof.
  intros Hz Hpre Hpre' Heq. destruct (str_head z Hz) as (a & s0 & Hs & Ha & _).
  elem_cases Hpre; elem_cases Hpre'; unfold pixel_key in *; try done;
    rewrite Hs in Heq; simplify_eq/=.
Qed.

Lemma pixel_key_not_scalar pre pre' ax ax' j :
  pre ∈ ["PV"; "PS"; "N"] →
  pre' ∈ ["CNAME"; "CUNIT"; "CRPIX"; "CRVAL"; "CDELT"] →
  pixel_key pre ax j ≠ pre' +:+ ax'.
Proof.
  intros Hpre Hpre' Heq. elem_cases Hpre; elem_cases Hpre';
    unfold pixel_key in *; simplify_eq/=.
Qed.

(** ** The encoder *)

Lemma xrange_of_nat n : xrange (Z.of_nat n) = seq 0 n.
Proof. unfold xrange. by rewrite Nat2Z.id. Qed.

Lemma elem_of_rev {A} (l : list A) x : x ∈ rev l ↔ x ∈ l.
Proof. rewrite !list_elem_of_In. symmetry. apply in_rev. Qed.

Lemma elem_of_xrange n i : i ∈ xrange n ↔ (Z.of_nat i < n).
Proof. unfold xrange. rewrite elem_of_seq. lia. Qed.

Lemma index_key_family pre ax n j :
  (j < n)%nat → index (key_family pre ax n) j = Ok (pixel_key pre ax j).
Proof.
  intros Hj. apply index_Ok. unfold key_family.
  rewrite xrange_of_nat, list_lookup_fmap, lookup_seq_lt by done. done.
Qed.

Section Encoder.
Context {num : Type} `{Numeric num}.

Implicit Types (h : gmap string (pyval num)) (data : ndarray num).
Implicit Types (baselines : list (list (pyval num))) (info : infodict num).

Lemma raises_python_as_num (v : pyval num) : raises_python (as_num v).
Proof. by destruct v. Qed.

Lemma lookup_header_set h key v k :
  header_set key v h !! k = if decide (key = k) then Some v else h !! k.
Proof. unfold header_set. apply lookup_insert. Qed.

Lemma lookup_header_set_ne h key v k :
  key ≠ k → header_set key v h !! k = h !! k.
Proof. unfold header_set. apply lookup_insert_ne. Qed.

Lemma lookup_header_set_eq h key v : header_set key v h !! key = Some v.
Proof. unfold header_set. apply lookup_insert_eq. Qed.

Lemma lookup_set_cards_notin (cards : list (string * pyval num)) h k :
  k ∉ cards.*1 → set_cards cards h !! k = h !! k.
Proof.
  unfold set_cards. revert h. induction cards as [|[k' v] cards IH];
    intros h Hk; simpl; [done|].
  rewrite IH by (intros ?; apply Hk; by right).
  apply lookup_header_set_ne. intros ->. apply Hk. by left.
Qed.

Lemma lookup_set_cards_in (cards : list (string * pyval num)) h k :
  k ∈ cards.*1 → is_Some (set_cards cards h !! k).
Proof.
  unfold set_cards. revert h. induction cards as [|[k' v] cards IH];
    intros h Hk; simpl in *; [by apply elem_of_nil in Hk|].
  destruct (decide (k ∈ cards.*1)) as [Hin|Hnin]; [by apply IH|].
  apply elem_of_cons in Hk as [->|?]; [|done].
  pose proof (lookup_set_cards_notin cards (header_set k' v h) k' Hnin) as Hl.
  unfold set_cards in Hl. rewrite Hl, lookup_header_set_eq. eauto.
Qed.

Lemma naxis_cards_keys (sh : list nat) k :
  k ∈ (naxis_cards (num:=num) sh).*1 →
  ∃ i, (i < length sh)%nat ∧ k = "NAXIS" +:+ str (Z.of_nat i + 1).
Proof.
  unfold naxis_cards. intros Hk.
  apply list_elem_of_fmap in Hk as ([k' v] & -> & Hk).
  apply list_elem_of_lookup in Hk as [i Hi].
  rewrite list_lookup_imap in Hi.
  destruct (rev sh !! i) as [n|] eqn:Hn; simplify_eq/=.
  exists i. split; [|done].
  apply lookup_lt_Some in Hn. by rewrite length_rev in Hn.
Qed.

(** *** One family of per-pixel keywords *)

Lemma write_family_frame pre ax baselines ipar n h h' k :
  write_family (key_family pre ax n) baselines ipar n h = Ok h' →
  (∀ j, k ≠ pixel_key pre ax j) → h' !! k = h !! k.
Proof.
  intros Hw Hk. unfold write_family in Hw.
  eapply (for_each_invariant _ (λ h1, h1 !! k = h !! k)); [|done|exact Hw].
  intros h1 j h2 Hj Hh1 Hstep. rewrite xrange_of_nat, elem_of_seq in Hj.
  cbv beta in Hstep. rewrite index_key_family in Hstep by lia.
  simpl in Hstep.
  inv_bind Hstep. inv_bind Hstep. simplify_eq.
  rewrite lookup_header_set_ne; [done|]. intros Heq. by eapply Hk.
Qed.

Lemma write_family_lookup pre ax baselines ipar n h h' j :
  write_family (key_family pre ax n) baselines ipar n h = Ok h' →
  (j < n)%nat →
  ∃ b v, baselines !! ipar = Some b ∧ b !! j = Some v
         ∧ h' !! pixel_key pre ax j = Some v.
Proof.
  intros Hw Hj. unfold write_family in Hw.
  pose proof (NoDup_seq 0 n) as Hnd. rewrite xrange_of_nat in Hw.
  destruct (for_each_pass _ _ _ _ j Hw) as (l1 & l2 & hb & ha & Hl & _ & Hstep & Hrest).
  { apply elem_of_seq. lia. }
  cbv beta in Hstep. rewrite index_key_family in Hstep by lia.
  simpl in Hstep.
  inv_bind Hstep. inv_bind Hstep. simplify_eq.
  apply index_Ok in Ha, Ha0. exists a, a0. split_and!; [done..|].
  eapply (for_each_invariant _ (λ h1, h1 !! pixel_key pre ax j = Some a0));
    [|apply lookup_header_set_eq|exact Hrest].
  intros h1 j' h2 Hj' Hh1 Hstep.
  assert (j' ≠ j) as Hne.
  { intros ->. rewrite Hl in Hnd. apply NoDup_app in Hnd as (_ & _ & Hnd).
    apply NoDup_cons in Hnd as [Hnd _]. done. }
  assert (j' < n)%nat as Hlt.
  { assert (j' ∈ seq 0 n) as Hin
      by (rewrite Hl; apply elem_of_app; right; by right).
    apply elem_of_seq in Hin. lia. }
  cbv beta in Hstep. rewrite index_key_family in Hstep by lia.
  simpl in Hstep.
  inv_bind Hstep. inv_bind Hstep. simplify_eq.
  rewrite lookup_header_set_ne; [done|].
  intros Heq. by apply pixel_key_inj_pixel in Heq.
Qed.

Lemma write_family_total pre ax baselines ipar n h b :
  baselines !! ipar = Some b → (n ≤ length b)%nat →
  ∃ h', write_family (key_family pre ax n) baselines ipar n h = Ok h'.
Proof.
  intros Hb Hn. unfold write_family.
  destruct (for_each_total
    (λ h j, key <- index (key_family pre ax n) j ;;
            b <- index baselines ipar ;; v <- index b j ;;
            Ok (header_set key v h))
    (λ _, True) (xrange (Z.of_nat n)) h) as (h' & Hh' & _); [|done|eauto].
  intros h1 j Hj _. rewrite xrange_of_nat, elem_of_seq in Hj.
  rewrite index_key_family by lia. simpl.
  unfold index at 1. rewrite Hb. simpl.
  destruct (lookup_lt_is_Some_2 b j) as [v Hv]; [lia|].
  unfold index. rewrite Hv. simpl. eauto.
Qed.

(** *** One pass of the loop over the axes *)

(** What a pass that succeeds has done: [h1] is the header after the name
    and the unit, and the rest depends on the kind. *)
Lemma write_axis_inv data baselines info npars h ipar h' :
  write_axis data baselines info npars h ipar = Ok h' →
  let ax := str (npars + 1 - Z.of_nat ipar) in
  ∃ kinds kind h1,
    par_axistype info = Some kinds ∧ kinds !! ipar = Some kind ∧
    (∀ k, k ≠ "CNAME" +:+ ax → k ≠ "CUNIT" +:+ ax → h1 !! k = h !! k) ∧
    if String.eqb (strip kind) "regular" then
      ∃ b b0 b1 x0 x1,
        baselines !! ipar = Some b ∧ b !! 0%nat = Some b0 ∧
        b !! 1%nat = Some b1 ∧ as_num b1 = Ok x1 ∧ as_num b0 = Ok x0 ∧
        h' = header_set ("CDELT" +:+ ax) (VNum (nsub x1 x0))
               (header_set ("CRVAL" +:+ ax) b0
                  (header_set ("CRPIX" +:+ ax) (VNum one_float) h1))
    else if String.eqb (strip kind) "irregular" then
      ∃ n, shape data !! ipar = Some n ∧
           write_family (key_family "PV" ax n) baselines ipar n h1 = Ok h'
    else if String.eqb (strip kind) "labeled" then
      ∃ n, shape data !! ipar = Some n ∧
           write_family (key_family "PS" ax n) baselines ipar n h1 = Ok h'
    else if String.eqb (strip kind) "named" then
      ∃ n, shape data !! ipar = Some n ∧
           write_family (key_family "N" ax n) baselines ipar n h1 = Ok h'
    else h' = h1.
Proof.
  intros Hw ax. unfold write_axis in Hw. fold ax in Hw.
  inv_bind Hw. rename a into hn. inv_bind Hw. rename a into hu.
  inv_bind Hw. rename a into kinds. inv_bind Hw. rename a into kind.
  exists kinds, kind, hu. split_and!.
  - by destruct (par_axistype info); simplify_eq/=.
  - by apply index_Ok.
  - intros k Hk1 Hk2.
    assert (hu !! k = hn !! k) as ->.
    { destruct (par_units info); simplify_eq/=; [|done].
      inv_bind Ha0. simplify_eq. by apply lookup_header_set_ne. }
    destruct (par_names info); simplify_eq/=; [|done].
    inv_bind Ha. simplify_eq. by apply lookup_header_set_ne.
  - destruct (String.eqb (strip kind) "regular").
    { inv_bind Hw. inv_bind Hw. inv_bind Hw. inv_bind Hw. inv_bind Hw.
      simplify_eq. apply index_Ok in Ha3, Ha4, Ha5.
      by eexists _, _, _, _, _. }
    destruct (String.eqb (strip kind) "irregular").
    { inv_bind Hw. apply index_Ok in Ha3. eauto. }
    destruct (String.eqb (strip kind) "labeled").
    { inv_bind Hw. apply index_Ok in Ha3. eauto. }
    destruct (String.eqb (strip kind) "named").
    { inv_bind Hw. apply index_Ok in Ha3. eauto. }
    by simplify_eq.
Qed.

(** A pass changes only keywords of its own axis. *)
Lemma write_axis_frame data baselines info npars h ipar h' k :
  write_axis data baselines info npars h ipar = Ok h' →
  ¬ owned (str (npars + 1 - Z.of_nat ipar)) k → h' !! k = h !! k.
Proof.
  intros Hw Hk. apply write_axis_inv in Hw as (kinds & kind & h1 & _ & _ & Hh1 & Hw).
  set (ax := str (npars + 1 - Z.of_nat ipar)) in *.
  assert (∀ pre, pre ∈ ["CNAME"; "CUNIT"; "CRPIX"; "CRVAL"; "CDELT"] →
                 pre +:+ ax ≠ k) as Hs.
  { intros pre Hpre <-. apply Hk. by constructor. }
  assert (∀ pre j, pre ∈ ["PV"; "PS"; "N"] → k ≠ pixel_key pre ax j) as Hp.
  { intros pre j Hpre ->. apply Hk. by constructor. }
  rewrite <-Hh1 by (apply not_eq_sym, Hs; set_solver).
  destruct (String.eqb (strip kind) "regular").
  { destruct Hw as (b & b0 & b1 & x0 & x1 & _ & _ & _ & _ & _ & ->).
    rewrite !lookup_header_set_ne; [done|apply Hs; set_solver..]. }
  destruct (String.eqb (strip kind) "irregular").
  { destruct Hw as (n & _ & Hw). eapply write_family_frame; [done|].
    intros j. apply Hp. set_solver. }
  destruct (String.eqb (strip kind) "labeled").
  { destruct Hw as (n & _ & Hw). eapply write_family_frame; [done|].
    intros j. apply Hp. set_solver. }
  destruct (String.eqb (strip kind) "named").
  { destruct Hw as (n & _ & Hw). eapply write_family_frame; [done|].
    intros j. apply Hp. set_solver. }
  by subst.
Qed.

(** *** The prologue and the loop *)

Lemma lookup_PrimaryHDU_None data k :
  k ∉ ["SIMPLE"; "BITPIX"; "NAXIS"; "EXTEND"] → (∀ s, k ≠ "NAXIS" +:+ s) →
  PrimaryHDU data !! k = None.
Proof.
  intros Hk Hn. unfold PrimaryHDU.
  rewrite lookup_header_set_ne by set_solver.
  rewrite lookup_set_cards_notin.
  - rewrite !lookup_header_set_ne by set_solver. apply lookup_empty.
  - intros (i & _ & ->)%naxis_cards_keys. by eapply Hn.
Qed.

Lemma lookup_PrimaryHDU_NAXIS1 data :
  shape data ≠ [] → is_Some (PrimaryHDU data !! "NAXIS1").
Proof.
  intros Hsh. unfold PrimaryHDU.
  rewrite lookup_header_set_ne by done.
  apply lookup_set_cards_in. unfold naxis_cards.
  rewrite <-(rev_involutive (shape data)) in Hsh.
  destruct (rev (shape data)) as [|n l]; [done|]. simpl. by left.
Qed.

Lemma write_prologue_Ok data info h :
  write_prologue data info = Ok h →
  ∃ c0 c1, coeff0 info = Some c0 ∧ coeff1 info = Some c1 ∧
    h = header_set "CDELT1" c1 (header_set "CRVAL1" c0
          (header_set "CRPIX1" (VNum one_float)
             (header_set "CUNIT1" (VStr "log10(Angstroms)")
                (header_set "CNAME1" (VStr "loglam")
                   match fluxunit info with
                   | Some u => header_set "BUNIT" u (PrimaryHDU data)
                   | None => PrimaryHDU data
                   end)))).
Proof.
  unfold write_prologue. intros Hp. inv_bind Hp. inv_bind Hp. simplify_eq.
  destruct (coeff0 info), (coeff1 info); simplify_eq/=. eauto.
Qed.

Lemma write_prologue_BUNIT data info h :
  write_prologue data info = Ok h → h !! "BUNIT" = fluxunit info.
Proof.
  intros (c0 & c1 & _ & _ & ->)%write_prologue_Ok.
  rewrite !lookup_header_set_ne by done.
  destruct (fluxunit info); [apply lookup_header_set_eq|].
  apply lookup_PrimaryHDU_None; [set_solver|done].
Qed.

Lemma write_prologue_wavelength data info h :
  write_prologue data info = Ok h →
  h !! "CNAME1" = Some (VStr "loglam")
  ∧ h !! "CUNIT1" = Some (VStr "log10(Angstroms)")
  ∧ h !! "CRPIX1" = Some (VNum one_float)
  ∧ h !! "CRVAL1" = coeff0 info ∧ h !! "CDELT1" = coeff1 info
  ∧ (shape data ≠ [] → is_Some (h !! "NAXIS1")).
Proof.
  intros (c0 & c1 & -> & -> & ->)%write_prologue_Ok. split_and!;
    rewrite ?lookup_header_set_eq, ?lookup_header_set_ne by done;
    rewrite ?lookup_header_set_eq; try done.
  intros Hsh. destruct (fluxunit info);
    rewrite ?lookup_header_set_ne by done; by apply lookup_PrimaryHDU_NAXIS1.
Qed.

(** Before the loop the header holds no keyword of a parameter axis. *)
Lemma write_prologue_owned data info h z k :
  write_prologue data info = Ok h → 2 ≤ z → owned (str z) k → h !! k = None.
Proof.
  intros (c0 & c1 & _ & _ & ->)%write_prologue_Ok Hz Hk.
  destruct (owned_not_structural z k) as [Hs Hn]; [lia|done|].
  assert (∀ pre, pre ∈ ["CNAME"; "CUNIT"; "CRPIX"; "CRVAL"; "CDELT"] →
                 pre +:+ "1" ≠ k) as H1.
  { intros pre Hpre Heq. by eapply owned_not_axis1. }
  rewrite (lookup_header_set_ne _ "CDELT1") by (apply (H1 "CDELT"); set_solver).
  rewrite (lookup_header_set_ne _ "CRVAL1") by (apply (H1 "CRVAL"); set_solver).
  rewrite (lookup_header_set_ne _ "CRPIX1") by (apply (H1 "CRPIX"); set_solver).
  rewrite (lookup_header_set_ne _ "CUNIT1") by (apply (H1 "CUNIT"); set_solver).
  rewrite (lookup_header_set_ne _ "CNAME1") by (apply (H1 "CNAME"); set_solver).
  assert (PrimaryHDU data !! k = None) as Hp
    by (apply lookup_PrimaryHDU_None; [set_solver|done]).
  destruct (fluxunit info); [|done].
  rewrite lookup_header_set_ne; [done|]. intros <-. set_solver.
Qed.

(** The FITS number of a parameter axis is at least 2. *)
Lemma axis_number_ge data ipar :
  ipar ∈ xrange (Z.of_nat (length (shape data)) - 1) →
  2 ≤ Z.of_nat (length (shape data)) - 1 + 1 - Z.of_nat ipar.
Proof. rewrite elem_of_xrange. lia. Qed.

Lemma write_loop_frame data baselines info npars h0 l h k :
  for_each (write_axis data baselines info npars) h0 l = Ok h →
  (∀ i, i ∈ l → ¬ owned (str (npars + 1 - Z.of_nat i)) k) →
  h !! k = h0 !! k.
Proof.
  intros Hl Hk.
  eapply (for_each_invariant _ (λ h1, h1 !! k = h0 !! k)); [|done|exact Hl].
  intros h1 i h2 Hi Hh1 Hstep. rewrite <-Hh1.
  eapply write_axis_frame; [done|]. by apply Hk.
Qed.

(** A keyword that belongs to no parameter axis keeps the value the
    prologue gave it. *)
Lemma write_header_frame data baselines info h k :
  write_header data baselines info = Ok h →
  (∀ z, 2 ≤ z → ¬ owned (str z) k) →
  ∃ h0, write_prologue data info = Ok h0 ∧ h !! k = h0 !! k.
Proof.
  unfold write_header. intros Hw Hk. inv_bind Hw. cbv zeta in Hw.
  exists a. split; [done|].
  eapply write_loop_frame; [done|]. intros i Hi. apply Hk.
  rewrite elem_of_rev in Hi. by apply axis_number_ge.
Qed.

(** *** Baselines that are longer than the axis, or too short *)

Lemma index_extends baselines baselines' ipar j (b : list (pyval num)) v :
  extends baselines baselines' →
  index baselines ipar = Ok b → index b j = Ok v →
  ∃ b', index baselines' ipar = Ok b' ∧ index b' j = Ok v.
Proof.
  intros Hext Hb%index_Ok Hv. destruct (Hext _ _ Hb) as (b' & Hb' & Hpre).
  exists b'. split; [by apply index_Ok|by eapply index_prefix].
Qed.

Lemma write_family_extends base baselines baselines' ipar n h h' :
  extends baselines baselines' →
  write_family base baselines ipar n h = Ok h' →
  write_family base baselines' ipar n h = Ok h'.
Proof.
  intros Hext. unfold write_family. apply for_each_mono.
  intros h1 j h2 _ Hstep. inv_bind Hstep as key Hkey.
  inv_bind Hstep as b Hb. inv_bind Hstep as v Hv.
  destruct (index_extends _ _ _ _ _ _ Hext Hb Hv) as (b' & Hb' & Hv').
  rewrite Hkey. simpl. rewrite Hb'. simpl. by rewrite Hv'.
Qed.

Lemma write_axis_extends data baselines baselines' info npars h ipar h' :
  extends baselines baselines' →
  write_axis data baselines info npars h ipar = Ok h' →
  write_axis data baselines' info npars h ipar = Ok h'.
Proof.
  intros Hext Hw. unfold write_axis in *.
  inv_bind Hw as hn Hn. rewrite Hn. simpl.
  inv_bind Hw as hu Hu. rewrite Hu. simpl.
  inv_bind Hw as kinds Hkinds. rewrite Hkinds. simpl.
  inv_bind Hw as kind Hkind. rewrite Hkind. simpl.
  destruct (String.eqb (strip kind) "regular").
  { inv_bind Hw as b Hb. inv_bind Hw as b0 Hb0. inv_bind Hw as b1 Hb1.
    destruct (index_extends _ _ _ _ _ _ Hext Hb Hb0) as (b' & Hb' & Hb0').
    apply index_Ok in Hb, Hb'. destruct (Hext _ _ Hb) as (b'' & Hb'' & Hpre).
    simplify_eq. apply index_Ok in Hb'. rewrite Hb'. simpl.
    rewrite Hb0'. simpl. by rewrite (index_prefix _ _ _ _ Hpre Hb1). }
  repeat (destruct (String.eqb (strip kind) _);
          [inv_bind Hw as n Hn'; rewrite Hn'; simpl;
           by eapply write_family_extends|]).
  done.
Qed.

Lemma write_ndArch_extends data baselines baselines' info fs fs' :
  extends baselines baselines' →
  write_ndArch data baselines info fs = Ok fs' →
  write_ndArch data baselines' info fs = Ok fs'.
Proof.
  intros Hext Hw. unfold write_ndArch, write_header in *.
  inv_bind Hw as h Hh. inv_bind Hh as h0 Hh0. rewrite Hh0. simpl.
  erewrite for_each_mono; [exact Hw| |exact Hh].
  intros. by eapply write_axis_extends.
Qed.

(** A pass over an axis with a per-pixel family fails when some pixel has
    no baseline entry. *)
Lemma write_family_short pre ax baselines ipar n h j :
  (j < n)%nat → (∀ b, baselines !! ipar = Some b → b !! j = None) →
  ∃ e, write_family (key_family pre ax n) baselines ipar n h = Raise e.
Proof.
  intros Hj Hb. unfold write_family.
  apply (for_each_fails _ _ _ j).
  { rewrite xrange_of_nat, elem_of_seq. lia. }
  intros h1. rewrite index_key_family by done. simpl.
  unfold index at 1. destruct (baselines !! ipar) as [b|] eqn:Hbi; simpl;
    [|eauto].
  unfold index. rewrite (Hb b) by done. simpl. eauto.
Qed.

Lemma write_axis_short data baselines info npars h ipar kinds kind n j :
  par_axistype info = Some kinds → kinds !! ipar = Some kind →
  strip kind ∈ ["irregular"; "labeled"; "named"] →
  shape data !! ipar = Some n → (j < n)%nat →
  (∀ b, baselines !! ipar = Some b → b !! j = None) →
  ∃ e, write_axis data baselines info npars h ipar = Raise e.
Proof.
  intros Hkinds Hkind Hstrip Hn Hj Hb. unfold write_axis.
  apply bind_fails. intros hn. apply bind_fails. intros hu.
  rewrite Hkinds. simpl. unfold index at 1. rewrite Hkind. simpl.
  elem_cases Hstrip;
    match goal with Heq : strip kind = _ |- _ => rewrite Heq end; simpl;
    unfold index at 1; rewrite Hn; simpl; by eapply write_family_short.
Qed.

(** A pass succeeds on a valid axis. *)
Lemma write_axis_total data baselines info npars h ipar kinds kind b L :
  (∀ ns, par_names info = Some ns → (ipar < length ns)%nat) →
  (∀ us, par_units info = Some us → (ipar < length us)%nat) →
  par_axistype info = Some kinds → kinds !! ipar = Some kind →
  baselines !! ipar = Some b → shape data !! ipar = Some L →
  valid_axis kind b L →
  ∃ h', write_axis data baselines info npars h ipar = Ok h'.
Proof.
  intros Hns Hus Hkinds Hkind Hb HL (HL1 & Hlen & Hvalid). unfold write_axis.
  assert (∃ hn, match par_names info with
                | Some names =>
                    v <- index names ipar ;;
                    Ok (header_set
                          ("CNAME" +:+ str (npars + 1 - Z.of_nat ipar)) v h)
                | None => Ok h
                end = Ok hn) as [hn ->].
  { destruct (par_names info) as [ns|]; [|eauto].
    destruct (lookup_lt_is_Some_2 ns ipar) as [v Hv]; [by apply Hns|].
    unfold index. rewrite Hv. simpl. eauto. }
  simpl.
  assert (∃ hu, match par_units info with
                | Some units =>
                    v <- index units ipar ;;
                    Ok (header_set
                          ("CUNIT" +:+ str (npars + 1 - Z.of_nat ipar)) v hn)
                | None => Ok hn
                end = Ok hu) as [hu ->].
  { destruct (par_units info) as [us|]; [|eauto].
    destruct (lookup_lt_is_Some_2 us ipar) as [v Hv]; [by apply Hus|].
    unfold index. rewrite Hv. simpl. eauto. }
  simpl. rewrite Hkinds. simpl. unfold index at 1. rewrite Hkind. simpl.
  destruct Hvalid
    as [(-> & x0 & x1 & H0 & H1 & _)|[[-> _]|[[-> _]|[[-> _]|[-> _]]]]];
    simpl.
  - unfold index. rewrite Hb. simpl. rewrite H0. simpl. rewrite H1. simpl.
    eauto.
  - unfold index at 1. rewrite HL. simpl.
    eapply write_family_total; [done|lia].
  - unfold index at 1. rewrite HL. simpl.
    eapply write_family_total; [done|lia].
  - unfold index at 1. rewrite HL. simpl.
    eapply write_family_total; [done|lia].
  - eauto.
Qed.

(** The keywords of an axis in the final header are those its own pass
    wrote, on a header that had none of them. *)
Lemma write_loop_axis data baselines info h0 h i :
  let npars := Z.of_nat (length (shape data)) - 1 in
  for_each (write_axis data baselines info npars) h0 (rev (xrange npars))
  = Ok h →
  Z.of_nat i < npars →
  (∀ z k, 2 ≤ z → owned (str z) k → h0 !! k = None) →
  ∃ hb ha,
    write_axis data baselines info npars hb i = Ok ha
    ∧ ∀ k, owned (str (npars + 1 - Z.of_nat i)) k →
           hb !! k = None ∧ h !! k = ha !! k.
Proof.
  intros npars Hl Hi H0.
  assert (NoDup (rev (xrange npars))) as Hnd
    by apply NoDup_ListNoDup, List.NoDup_rev, NoDup_ListNoDup, NoDup_seq.
  destruct (for_each_pass _ _ _ _ i Hl)
    as (l1 & l2 & hb & ha & Hsplit & Hl1 & Hstep & Hl2).
  { rewrite elem_of_rev. by apply elem_of_xrange. }
  rewrite Hsplit in Hnd. apply NoDup_app in Hnd as (_ & Hni1 & Hnd).
  apply NoDup_cons in Hnd as [Hni2 _].
  assert (∀ j, j ∈ l1 ++ i :: l2 → Z.of_nat j < npars) as Hin.
  { intros j Hj. rewrite <-Hsplit, elem_of_rev in Hj.
    by apply elem_of_xrange. }
  assert (∀ j k, j ∈ l1 ++ i :: l2 → j ≠ i →
                 owned (str (npars + 1 - Z.of_nat i)) k →
                 ¬ owned (str (npars + 1 - Z.of_nat j)) k) as Hother.
  { intros j k Hj Hne Hoi Hoj. specialize (Hin j Hj).
    assert (npars + 1 - Z.of_nat i = npars + 1 - Z.of_nat j)
      by (by apply (owned_inj _ _ k); [lia|lia|..]).
    lia. }
  exists hb, ha. split; [done|]. intros k Hk. split.
  - rewrite (write_loop_frame _ _ _ _ _ _ _ k Hl1).
    + apply (H0 (npars + 1 - Z.of_nat i)); [lia|done].
    + intros j Hj. apply Hother; [set_solver| |done].
      intros ->. by apply (Hni1 i); [|left].
  - apply (write_loop_frame _ _ _ _ _ _ _ k Hl2).
    intros j Hj. apply Hother; [set_solver| |done]. by intros ->.
Qed.

Lemma write_ndArch_Ok data baselines info fs fs' :
  write_ndArch data baselines info fs = Ok fs' →
  ∃ name h, filename info = Some name
            ∧ write_header data baselines info = Ok h
            ∧ fs' = <[name := mk_fitsfile h data]> fs.
Proof.
  unfold write_ndArch, writeto. intros Hw.
  inv_bind Hw as h Hh. inv_bind Hw as name Hname. simplify_eq.
  destruct (filename info); simplify_eq/=. eauto.
Qed.

Lemma raises_python_write_family base baselines ipar n h :
  raises_python (write_family base baselines ipar n h).
Proof.
  unfold write_family. apply raises_python_for_each. intros h1 j.
  repeat (apply raises_python_bind;
          [first [apply raises_python_index|apply raises_python_item]|intros ? _]).
  done.
Qed.

Lemma raises_python_write_axis data baselines info npars h ipar :
  raises_python (write_axis data baselines info npars h ipar).
Proof.
  unfold write_axis.
  apply raises_python_bind.
  { destruct (par_names info); [|done].
    apply raises_python_bind; [apply raises_python_index|done]. }
  intros hn _. apply raises_python_bind.
  { destruct (par_units info); [|done].
    apply raises_python_bind; [apply raises_python_index|done]. }
  intros hu _. apply raises_python_bind; [apply raises_python_item|].
  intros kinds _. apply raises_python_bind; [apply raises_python_index|].
  intros kind _.
  destruct (String.eqb (strip kind) "regular").
  { repeat (apply raises_python_bind;
            [first [apply raises_python_index|apply raises_python_as_num]
            |intros ? _]).
    done. }
  repeat (destruct (String.eqb (strip kind) _);
          [apply raises_python_bind;
           [apply raises_python_index
           |intros ? _; apply raises_python_write_family]|]).
  done.
Qed.

(** The encoder raises only exceptions of the Python run time. *)
Lemma raises_python_write_ndArch data baselines info fs :
  raises_python (write_ndArch data baselines info fs).
Proof.
  unfold write_ndArch. apply raises_python_bind.
  - unfold write_header. apply raises_python_bind.
    + unfold write_prologue.
      apply raises_python_bind; [apply raises_python_item|intros c0 _].
      apply raises_python_bind; [apply raises_python_item|done].
    + intros h _. apply raises_python_for_each. intros.
      apply raises_python_write_axis.
  - intros h _. apply raises_python_bind; [apply raises_python_item|done].
Qed.

End Encoder.

(** ** The decoder *)

Lemma prod_pos (tests : list bool) : (0 <? prod tests) = forallb id tests.
Proof.
  induction tests as [|[] tests IH]; simpl; [done| |done].
  rewrite <-IH. by destruct (prod tests).
Qed.

Section Decoder.
Context {num : Type} `{Numeric num}.

Implicit Types (h : gmap string (pyval num)) (data : ndarray num).
Implicit Types (baselines : list (list (pyval num))) (info : infodict num).
Implicit Types (st : list (list (pyval num)) * infodict num).

Lemma prod_family h pre ax n :
  (0 <? prod (map (header_has h) (key_family pre ax n)))
  = family_present h pre ax n.
Proof.
  rewrite prod_pos. unfold family_present.
  induction (key_family pre ax n) as [|k l IH]; simpl; [done|by rewrite IH].
Qed.

Lemma header_has_true h k : header_has h k = true ↔ is_Some (h !! k).
Proof. unfold header_has. apply bool_decide_eq_true. Qed.

Lemma header_has_false h k : header_has h k = false ↔ h !! k = None.
Proof.
  unfold header_has. rewrite bool_decide_eq_false.
  by rewrite eq_None_not_Some.
Qed.

Lemma header_get_Ok h k v : header_get h k = Ok v ↔ h !! k = Some v.
Proof. unfold header_get. destruct (h !! k); naive_solver. Qed.

Lemma raises_python_header_get h k : raises_python (header_get h k).
Proof. unfold header_get. by destruct (h !! k). Qed.

Lemma family_present_true h pre ax n :
  family_present h pre ax n = true
  ↔ ∀ j, (j < n)%nat → is_Some (h !! pixel_key pre ax j).
Proof.
  unfold family_present, key_family. rewrite xrange_of_nat, forallb_forall.
  split.
  - intros Hall j Hj. apply header_has_true, Hall, in_map, in_seq. lia.
  - intros Hall k (j & <- & Hj%in_seq)%in_map_iff.
    apply header_has_true, Hall. lia.
Qed.

Lemma family_present_false h pre ax n j :
  (j < n)%nat → h !! pixel_key pre ax j = None →
  family_present h pre ax n = false.
Proof.
  intros Hj Hk. apply not_true_is_false. rewrite family_present_true.
  intros Hall. destruct (Hall j Hj) as [v Hv]. congruence.
Qed.

(** On an axis without elements every family is present, vacuously: such an
    axis is never detected as labeled, named or index. *)
Lemma detect_kind_empty_axis h ax :
  detect_kind h ax 0 = (if regular_present h ax then "regular" else "irregular").
Proof. unfold detect_kind. by destruct (regular_present h ax). Qed.

(** *** Reading a family *)

Lemma get_all_lookup h keys vs :
  get_all h keys = Ok vs →
  length vs = length keys
  ∧ ∀ j k, keys !! j = Some k → ∃ v, vs !! j = Some v ∧ h !! k = Some v.
Proof.
  revert vs. induction keys as [|k keys IH]; intros vs Hg; simpl in Hg.
  - simplify_eq. split; [done|]. intros j k Hj. by rewrite lookup_nil in Hj.
  - inv_bind Hg. inv_bind Hg. simplify_eq. apply header_get_Ok in Ha.
    destruct (IH _ Ha0) as [Hlen Hl]. split; [simpl; by rewrite Hlen|].
    intros [|j] k' Hj; simplify_eq/=; eauto.
Qed.

Lemma get_all_values h keys (vs : list (pyval num)) :
  length vs = length keys →
  (∀ j k, keys !! j = Some k → h !! k = vs !! j) →
  get_all h keys = Ok vs.
Proof.
  revert vs. induction keys as [|k keys IH]; intros [|v vs] Hlen Hl;
    simplify_eq/=; [done|].
  unfold header_get. rewrite (Hl 0%nat k) by done. simpl.
  rewrite (IH vs); [done|done|]. intros j k' Hj. by apply (Hl (S j)).
Qed.

Lemma get_all_total h pre ax n :
  family_present h pre ax n = true →
  ∃ vs, get_all h (key_family pre ax n) = Ok vs.
Proof.
  unfold family_present.
  induction (key_family pre ax n) as [|k keys IH]; simpl; [eauto|].
  intros [Hk Hks]%andb_true_iff. apply header_has_true in Hk as [v Hv].
  destruct (IH Hks) as [vs Hvs]. exists (v :: vs).
  unfold header_get. by rewrite Hv, Hvs.
Qed.

Lemma get_all_ext h h' keys :
  (∀ k, k ∈ keys → h !! k = h' !! k) → get_all h keys = get_all h' keys.
Proof.
  induction keys as [|k keys IH]; intros Hk; simpl; [done|].
  unfold header_get. rewrite <-(Hk k) by left.
  rewrite IH; [done|]. intros. apply Hk. by right.
Qed.

Lemma raises_python_get_all h keys : raises_python (get_all h keys).
Proof.
  induction keys as [|k keys IH]; simpl; [done|].
  apply raises_python_bind; [apply raises_python_header_get|intros v _].
  apply raises_python_bind; [done|done].
Qed.

(** *** One pass of the loop over the axes *)

Lemma assign_par_name_Ok ipar v info info' :
  assign_par_name ipar v info = Ok info' →
  same_scalars info info' ∧ same_lengths info info'
  ∧ par_axistype info' = par_axistype info.
Proof.
  unfold assign_par_name. intros Ha. inv_bind Ha. simplify_eq.
  destruct (par_names info) as [l|] eqn:Hl; simplify_eq/=.
  unfold same_scalars, same_lengths. simpl. rewrite Hl. simpl.
  by rewrite length_insert.
Qed.

Lemma assign_par_unit_Ok ipar v info info' :
  assign_par_unit ipar v info = Ok info' →
  same_scalars info info' ∧ same_lengths info info'
  ∧ par_axistype info' = par_axistype info.
Proof.
  unfold assign_par_unit. intros Ha. inv_bind Ha. simplify_eq.
  destruct (par_units info) as [l|] eqn:Hl; simplify_eq/=.
  unfold same_scalars, same_lengths. simpl. rewrite Hl. simpl.
  by rewrite length_insert.
Qed.

Lemma assign_par_axistype_Ok ipar k info info' :
  assign_par_axistype ipar k info = Ok info' →
  ∃ ks, par_axistype info = Some ks
        ∧ info' = set_par_axistype (<[ipar := k]> ks) info.
Proof.
  unfold assign_par_axistype. intros Ha. inv_bind Ha. simplify_eq.
  destruct (par_axistype info) as [l|] eqn:Hl; simplify_eq/=. eauto.
Qed.

Lemma same_scalars_trans (d1 d2 d3 : infodict num) :
  same_scalars d1 d2 → same_scalars d2 d3 → same_scalars d1 d3.
Proof. unfold same_scalars. intuition congruence. Qed.

Lemma same_lengths_trans (d1 d2 d3 : infodict num) :
  same_lengths d1 d2 → same_lengths d2 d3 → same_lengths d1 d3.
Proof. unfold same_lengths. intuition congruence. Qed.

Lemma same_scalars_refl (d : infodict num) : same_scalars d d.
Proof. by unfold same_scalars. Qed.

Lemma same_lengths_refl (d : infodict num) : same_lengths d d.
Proof. by unfold same_lengths. Qed.

(** What a pass that succeeds has done: [info1] is the dictionary after the
    name and the unit; an axis detected as index is left alone, and any
    other axis receives its baseline and its kind. *)
Lemma read_axis_inv data h npars st ipar st' :
  read_axis data h npars st ipar = Ok st' →
  let ax := str (npars + 1 - Z.of_nat ipar) in
  ∃ n info1,
    shape data !! ipar = Some n
    ∧ same_scalars st.2 info1 ∧ same_lengths st.2 info1
    ∧ par_axistype info1 = par_axistype st.2
    ∧ ((detect_kind h ax n = "index" ∧ decoded_baseline h ax n = Ok (index_baseline n)
        ∧ st' = (st.1, info1))
       ∨ (detect_kind h ax n ≠ "index" ∧
          ∃ b ks, decoded_baseline h ax n = Ok b
                  ∧ par_axistype st.2 = Some ks
                  ∧ st' = (<[ipar := b]> st.1,
                           set_par_axistype
                             (<[ipar := detect_kind h ax n]> ks) info1))).
Proof.
  intros Hr ax. unfold read_axis in Hr. fold ax in Hr.
  inv_bind Hr. rename a into infon. inv_bind Hr. rename a into infou.
  inv_bind Hr. rename a into n. apply index_Ok in Ha1.
  assert (same_scalars st.2 infon ∧ same_lengths st.2 infon
          ∧ par_axistype infon = par_axistype st.2) as (Hs1 & Hl1 & Hk1).
  { destruct (header_has h ("CNAME" +:+ ax)).
    - inv_bind Ha. by apply assign_par_name_Ok in Ha.
    - simplify_eq. auto using same_scalars_refl, same_lengths_refl. }
  assert (same_scalars infon infou ∧ same_lengths infon infou
          ∧ par_axistype infou = par_axistype infon) as (Hs2 & Hl2 & Hk2).
  { destruct (header_has h ("CUNIT" +:+ ax)).
    - inv_bind Ha0. by apply assign_par_unit_Ok in Ha0.
    - simplify_eq. auto using same_scalars_refl, same_lengths_refl. }
  exists n, infou. split_and!; [done|by eapply same_scalars_trans
    |by eapply same_lengths_trans|congruence|].
  rewrite !prod_family in Hr.
  change (header_has h ("CRPIX" +:+ ax) && header_has h ("CRVAL" +:+ ax)
          && header_has h ("CDELT" +:+ ax)) with (regular_present h ax) in Hr.
  unfold detect_kind, decoded_baseline.
  destruct (regular_present h ax).
  { right. split; [done|].
    inv_bind Hr. inv_bind Hr. inv_bind Hr. inv_bind Hr. inv_bind Hr.
    inv_bind Hr. inv_bind Hr. simplify_eq.
    apply assign_par_axistype_Ok in Ha8 as (ks & Hks & ->).
    rewrite Ha2. simpl. rewrite Ha3. simpl. rewrite Ha4. simpl.
    rewrite Ha5. simpl. rewrite Ha6. simpl. rewrite Ha7. simpl.
    exists (regular_baseline n a0 a2 a4), ks. split_and!; [done|congruence|done]. }
  destruct (family_present h "PV" ax n).
  { right. split; [done|]. inv_bind Hr. inv_bind Hr. simplify_eq.
    apply assign_par_axistype_Ok in Ha3 as (ks & Hks & ->).
    exists a, ks. split_and!; [done|congruence|done]. }
  destruct (family_present h "PS" ax n).
  { right. split; [done|]. inv_bind Hr. inv_bind Hr. simplify_eq.
    apply assign_par_axistype_Ok in Ha3 as (ks & Hks & ->).
    exists a, ks. split_and!; [done|congruence|done]. }
  destruct (family_present h "N" ax n).
  { right. split; [done|]. inv_bind Hr. inv_bind Hr. simplify_eq.
    apply assign_par_axistype_Ok in Ha3 as (ks & Hks & ->).
    exists a, ks. split_and!; [done|congruence|done]. }
  left. simplify_eq. by destruct st.
Qed.

Lemma read_axis_total data h npars st ipar n b :
  shape data !! ipar = Some n →
  decoded_baseline h (str (npars + 1 - Z.of_nat ipar)) n = Ok b →
  is_Some (par_names st.2) → is_Some (par_units st.2) →
  is_Some (par_axistype st.2) →
  ∃ st', read_axis data h npars st ipar = Ok st'.
Proof.
  intros Hn Hb [ns Hns] [us Hus] [ks Hks]. unfold read_axis.
  set (ax := str (npars + 1 - Z.of_nat ipar)) in *.
  assert (∃ infon, (if header_has h ("CNAME" +:+ ax)
                    then v <- header_get h ("CNAME" +:+ ax) ;;
                         assign_par_name ipar v st.2
                    else Ok st.2) = Ok infon
                   ∧ is_Some (par_units infon) ∧ is_Some (par_axistype infon))
    as (infon & -> & [us' Hus'] & Hks').
  { destruct (header_has h ("CNAME" +:+ ax)) eqn:Hhas; [|eauto 6].
    apply header_has_true in Hhas as [v Hv]. unfold header_get. rewrite Hv.
    simpl. unfold assign_par_name. rewrite Hns. simpl. eauto 6. }
  simpl.
  assert (∃ infou, (if header_has h ("CUNIT" +:+ ax)
                    then v <- header_get h ("CUNIT" +:+ ax) ;;
                         assign_par_unit ipar v infon
                    else Ok infon) = Ok infou
                   ∧ is_Some (par_axistype infou))
    as (infou & -> & [ks' Hks'']).
  { destruct (header_has h ("CUNIT" +:+ ax)) eqn:Hhas; [|eauto].
    apply header_has_true in Hhas as [v Hv]. unfold header_get. rewrite Hv.
    simpl. unfold assign_par_unit. rewrite Hus'. simpl. eauto. }
  simpl. unfold index at 1. rewrite Hn. simpl.
  rewrite !prod_family.
  change (header_has h ("CRPIX" +:+ ax) && header_has h ("CRVAL" +:+ ax)
          && header_has h ("CDELT" +:+ ax)) with (regular_present h ax).
  unfold decoded_baseline in Hb. unfold assign_par_axistype. rewrite Hks''.
  destruct (regular_present h ax).
  { inv_bind Hb. inv_bind Hb. inv_bind Hb. inv_bind Hb. inv_bind Hb.
    inv_bind Hb. rewrite Ha; simpl. rewrite Ha0; simpl. rewrite Ha1; simpl.
    rewrite Ha2; simpl. rewrite Ha3; simpl. rewrite Ha4; simpl. eauto. }
  destruct (family_present h "PV" ax n); [rewrite Hb; simpl; eauto|].
  destruct (family_present h "PS" ax n); [rewrite Hb; simpl; eauto|].
  destruct (family_present h "N" ax n); [rewrite Hb; simpl; eauto|].
  eauto.
Qed.

(** A pass leaves the entries of the other axes alone. *)
Lemma read_axis_entry data h npars st j st' i b k :
  read_axis data h npars st j = Ok st' → j ≠ i →
  st.1 !! i = Some b →
  (∃ ks, par_axistype st.2 = Some ks ∧ ks !! i = Some k) →
  st'.1 !! i = Some b
  ∧ ∃ ks, par_axistype st'.2 = Some ks ∧ ks !! i = Some k.
Proof.
  intros Hr Hne Hb (ks & Hks & Hk).
  apply read_axis_inv in Hr as (n & info1 & _ & _ & _ & Hty & Hr).
  destruct Hr as [(_ & _ & ->)|(_ & b' & ks' & _ & Hks' & ->)]; simpl.
  - split; [done|]. exists ks. by rewrite Hty.
  - rewrite list_lookup_insert_ne by done. split; [done|].
    exists (<[j := detect_kind h (str (npars + 1 - Z.of_nat j)) n]> ks').
    split; [done|]. rewrite list_lookup_insert_ne by done. congruence.
Qed.

(** A pass keeps the scalar entries and the lengths of the lists. *)
Lemma read_axis_fixed data h npars st j st' :
  read_axis data h npars st j = Ok st' →
  same_scalars st.2 st'.2 ∧ same_lengths st.2 st'.2
  ∧ length st'.1 = length st.1.
Proof.
  intros Hr.
  apply read_axis_inv in Hr as (n & info1 & _ & Hs & Hl & Hty & Hr).
  destruct Hr as [(_ & _ & ->)|(_ & b' & ks' & _ & Hks' & ->)]; simpl;
    [done|].
  rewrite length_insert. split_and!; [done| |done].
  destruct Hl as (Hl1 & Hl2 & Hl3). unfold same_lengths; simpl.
  split_and!; [done..|]. rewrite Hks'. simpl. by rewrite length_insert.
Qed.

Lemma read_loop_fixed data h npars st l st' :
  for_each (read_axis data h npars) st l = Ok st' →
  same_scalars st.2 st'.2 ∧ same_lengths st.2 st'.2
  ∧ length st'.1 = length st.1.
Proof.
  intros Hl.
  eapply (for_each_invariant _
    (λ s, same_scalars st.2 s.2 ∧ same_lengths st.2 s.2
          ∧ length s.1 = length st.1)); [|done|exact Hl].
  intros s j s' _ (Hs & Hlen & Hb) Hr.
  apply read_axis_fixed in Hr as (Hs' & Hlen' & Hb').
  split_and!; [by eapply same_scalars_trans|by eapply same_lengths_trans
              |congruence].
Qed.

(** The loop computes, entry by entry, the pure view of the decoding. *)
Lemma read_loop_entry data h npars st0 st' i n :
  for_each (read_axis data h npars) st0 (xrange npars) = Ok st' →
  Z.of_nat i < npars → shape data !! i = Some n →
  st0.1 !! i = Some (index_baseline n) →
  (∃ ks, par_axistype st0.2 = Some ks ∧ ks !! i = Some "index") →
  ∃ b ks, decoded_baseline h (str (npars + 1 - Z.of_nat i)) n = Ok b
          ∧ st'.1 !! i = Some b
          ∧ par_axistype st'.2 = Some ks
          ∧ ks !! i = Some (detect_kind h (str (npars + 1 - Z.of_nat i)) n).
Proof.
  intros Hl Hi Hn Hb0 Hk0.
  pose proof (NoDup_seq 0 (Z.to_nat npars)) as Hnd. fold (xrange npars) in Hnd.
  destruct (for_each_pass _ _ _ _ i Hl)
    as (l1 & l2 & sb & sa & Hsplit & Hl1 & Hstep & Hl2).
  { by apply elem_of_xrange. }
  rewrite Hsplit in Hnd. apply NoDup_app in Hnd as (_ & Hni1 & Hnd).
  apply NoDup_cons in Hnd as [Hni2 _].
  set (ax := str (npars + 1 - Z.of_nat i)) in *.
  assert (sb.1 !! i = Some (index_baseline n)
          ∧ ∃ ks, par_axistype sb.2 = Some ks ∧ ks !! i = Some "index")
    as [Hb (ks & Hks & Hk)].
  { eapply (for_each_invariant _
      (λ s, s.1 !! i = Some (index_baseline n)
            ∧ ∃ ks, par_axistype s.2 = Some ks ∧ ks !! i = Some "index"));
      [|done|exact Hl1].
    intros s j s' Hj [Hs1 Hs2] Hr. eapply read_axis_entry; [done| |done..].
    intros ->. apply (Hni1 i); [done|by left]. }
  assert (∃ b ks, decoded_baseline h ax n = Ok b ∧ sa.1 !! i = Some b
                  ∧ par_axistype sa.2 = Some ks
                  ∧ ks !! i = Some (detect_kind h ax n))
    as (b & ks' & Hdec & Hb' & Hks' & Hk').
  { apply read_axis_inv in Hstep as (n' & info1 & Hn' & _ & _ & Hty & Hr).
    fold ax in Hr. simplify_eq.
    destruct Hr as [(Hd & Hdb & ->)|(_ & b' & ks' & Hdb & Hks' & ->)]; simpl.
    - exists (index_baseline n), ks. rewrite Hd, Hty. done.
    - rewrite Hks in Hks'. injection Hks' as <-.
      exists b', (<[i := detect_kind h ax n]> ks).
      split_and!; [done| |done|].
      + apply list_lookup_insert_eq. by eapply lookup_lt_Some.
      + apply list_lookup_insert_eq. by eapply lookup_lt_Some. }
  assert (st'.1 !! i = Some b ∧
          ∃ ks, par_axistype st'.2 = Some ks ∧
                ks !! i = Some (detect_kind h ax n)) as [? (ks'' & ? & ?)].
  { eapply (for_each_invariant _
      (λ s, s.1 !! i = Some b
            ∧ ∃ ks, par_axistype s.2 = Some ks
                    ∧ ks !! i = Some (detect_kind h ax n)));
      [|eauto|exact Hl2].
    intros s j s' Hj [Hs1 Hs2] Hr. eapply read_axis_entry; [done| |done..].
    intros ->. done. }
  by exists b, ks''.
Qed.

(** A pass consults only keywords of its own axis. *)
Lemma read_axis_ext data h h' npars st ipar :
  (∀ k, owned (str (npars + 1 - Z.of_nat ipar)) k → h !! k = h' !! k) →
  read_axis data h npars st ipar = read_axis data h' npars st ipar.
Proof.
  intros Hk. unfold read_axis.
  set (ax := str (npars + 1 - Z.of_nat ipar)) in *.
  assert (∀ pre, pre ∈ ["CNAME"; "CUNIT"; "CRPIX"; "CRVAL"; "CDELT"] →
                 h !! (pre +:+ ax) = h' !! (pre +:+ ax)) as Hs.
  { intros pre Hpre. apply Hk. by constructor. }
  assert (∀ pre, pre ∈ ["CNAME"; "CUNIT"; "CRPIX"; "CRVAL"; "CDELT"] →
                 header_has h (pre +:+ ax) = header_has h' (pre +:+ ax)) as Hhas.
  { intros pre Hpre. unfold header_has. by rewrite Hs. }
  assert (∀ pre, pre ∈ ["CNAME"; "CUNIT"; "CRPIX"; "CRVAL"; "CDELT"] →
                 header_get h (pre +:+ ax) = header_get h' (pre +:+ ax)) as Hget.
  { intros pre Hpre. unfold header_get. by rewrite Hs. }
  assert (∀ pre n, pre ∈ ["PV"; "PS"; "N"] →
                   map (header_has h) (key_family pre ax n)
                   = map (header_has h') (key_family pre ax n)) as Hfam.
  { intros pre n Hpre. apply map_ext_in. intros k Hin.
    apply in_map_iff in Hin as (j & <- & _). unfold header_has.
    rewrite (Hk (pixel_key pre ax j)); [done|by constructor]. }
  assert (∀ pre n, pre ∈ ["PV"; "PS"; "N"] →
                   get_all h (key_family pre ax n)
                   = get_all h' (key_family pre ax n)) as Hall.
  { intros pre n Hpre. apply get_all_ext. intros k Hin.
    apply list_elem_of_fmap in Hin as (j & -> & _).
    apply Hk. by constructor. }
  rewrite (Hhas "CNAME"), (Hget "CNAME"), (Hhas "CUNIT"), (Hget "CUNIT"),
    (Hhas "CRPIX"), (Hhas "CRVAL"), (Hhas "CDELT"), (Hget "CRPIX"),
    (Hget "CRVAL"), (Hget "CDELT") by set_solver.
  destruct (if header_has h' ("CNAME" +:+ ax) then _ else _); simpl; [|done].
  destruct (if header_has h' ("CUNIT" +:+ ax) then _ else _); simpl; [|done].
  destruct (index (shape data) ipar) as [n|]; simpl; [|done].
  by rewrite (Hfam "PV"), (Hfam "PS"), (Hfam "N"), (Hall "PV"), (Hall "PS"),
    (Hall "N") by set_solver.
Qed.

(** The pure view of an axis depends only on the keywords of that axis. *)
Lemma decoded_ext h h' ax L :
  (∀ k, owned ax k → h !! k = h' !! k) →
  detect_kind h ax L = detect_kind h' ax L
  ∧ decoded_baseline h ax L = decoded_baseline h' ax L.
Proof.
  intros Hk.
  assert (∀ pre, pre ∈ ["CNAME"; "CUNIT"; "CRPIX"; "CRVAL"; "CDELT"] →
                 h !! (pre +:+ ax) = h' !! (pre +:+ ax)) as Hs.
  { intros pre Hpre. apply Hk. by constructor. }
  assert (regular_present h ax = regular_present h' ax) as Hreg.
  { unfold regular_present, header_has.
    by rewrite (Hs "CRPIX"), (Hs "CRVAL"), (Hs "CDELT") by set_solver. }
  assert (∀ pre, pre ∈ ["PV"; "PS"; "N"] →
                 family_present h pre ax L = family_present h' pre ax L)
    as Hfam.
  { intros pre Hpre. unfold family_present, key_family.
    induction (xrange (Z.of_nat L)) as [|j l IH]; simpl; [done|].
    rewrite IH. unfold header_has.
    rewrite (Hk (pixel_key pre ax j)); [done|by constructor]. }
  assert (∀ pre, pre ∈ ["PV"; "PS"; "N"] →
                 get_all h (key_family pre ax L)
                 = get_all h' (key_family pre ax L)) as Hall.
  { intros pre Hpre. apply get_all_ext. intros k Hin.
    apply list_elem_of_fmap in Hin as (j & -> & _).
    apply Hk. by constructor. }
  unfold detect_kind, decoded_baseline, header_get.
  by rewrite Hreg, (Hfam "PV"), (Hfam "PS"), (Hfam "N"), (Hall "PV"),
    (Hall "PS"), (Hall "N"), (Hs "CRPIX"), (Hs "CRVAL"), (Hs "CDELT")
    by set_solver.
Qed.

(** *** The whole decoder *)

Lemma py_index_last_total {A} (l : list A) :
  l ≠ [] → ∃ x, py_index l (-1) = Ok x.
Proof.
  intros Hl. destruct l as [|y l] using rev_ind; [done|].
  exists y. apply py_index_last.
Qed.

Lemma getdata_Ok fname (fs : gmap string (fitsfile num)) d :
  getdata fname fs = Ok d
  ↔ ∃ f : fitsfile num,
      fs !! fname = Some f ∧ d = dat f ∧ shape (dat f) ≠ [].
Proof.
  unfold getdata. split.
  - destruct (fs !! fname) as [f|]; [|done].
    destruct (shape (dat f)) eqn:Hsh; [done|]. intros [= <-].
    exists f. by rewrite Hsh.
  - intros (f & -> & -> & Hsh). by destruct (shape (dat f)).
Qed.

Lemma read_ndArch_inv fname fs d bl info :
  read_ndArch fname fs = Ok (d, bl, info) →
  ∃ f cv base c0 c1 nw,
    parse_name fname = Ok cv ∧ fs !! fname = Some f ∧ d = dat f
    ∧ hdr f !! "CRVAL1" = Some c0 ∧ hdr f !! "CDELT1" = Some c1
    ∧ hdr f !! "NAXIS1" = Some nw
    ∧ let npars := Z.of_nat (length (shape (dat f))) - 1 in
      for_each (read_axis (dat f) (hdr f) npars)
        (map index_baseline (all_but_last (shape (dat f))),
         mk_infodict (Some base) (Some cv.1) (Some cv.2) (Some c0) (Some c1)
           (Some nw)
           (Some (match hdr f !! "BUNIT" with
                  | Some v => v
                  | None => VStr ""
                  end))
           (Some (py_repeat (VStr "") npars))
           (Some (py_repeat (VStr "") npars))
           (Some (py_repeat "index" npars)))
        (xrange npars) = Ok (bl, info).
Proof.
  unfold read_ndArch, getheader. intros Hr.
  inv_bind Hr as cv Hcv. inv_bind Hr as d' Hd. inv_bind Hr as h Hh.
  apply getdata_Ok in Hd as (f & Hf & -> & _). rewrite Hf in Hh.
  simplify_eq/=.
  inv_bind Hr as base Hbase. inv_bind Hr as c0 Hc0. inv_bind Hr as c1 Hc1.
  inv_bind Hr as nw Hnw. inv_bind Hr as info1 Hinfo. inv_bind Hr as st Hst.
  simplify_eq. apply header_get_Ok in Hc0, Hc1, Hnw.
  exists f, cv, base, c0, c1, nw. split_and!; [done..|]. simpl.
  destruct st as [bl info]. simpl.
  unfold header_has, header_get in Hinfo.
  destruct (hdr f !! "BUNIT") as [v|] eqn:Hbu.
  - rewrite bool_decide_eq_true_2 in Hinfo by eauto. simpl in Hinfo.
    by simplify_eq.
  - rewrite bool_decide_eq_false_2 in Hinfo
      by (intros [? ?]; congruence).
    by simplify_eq.
Qed.

(** What the decoder returns for one parameter axis. *)
Lemma read_ndArch_axis fname fs f bl info i n :
  read_ndArch fname fs = Ok (dat f, bl, info) → fs !! fname = Some f →
  (i < length (shape (dat f)) - 1)%nat → shape (dat f) !! i = Some n →
  ∃ b ks,
    decoded_baseline (hdr f) (axis_number (length (shape (dat f))) i) n = Ok b
    ∧ bl !! i = Some b ∧ par_axistype info = Some ks
    ∧ ks !! i
      = Some (detect_kind (hdr f) (axis_number (length (shape (dat f))) i) n).
Proof.
  intros Hr Hf Hi Hn.
  apply read_ndArch_inv in Hr
    as (f' & cv & base & c0 & c1 & nw & _ & Hf' & _ & _ & _ & _ & Hl).
  simplify_eq. simpl in Hl.
  eapply read_loop_entry in Hl as (b & ks & ? & ? & ? & ?);
    [unfold axis_number; by exists b, ks|lia|done|..].
  - simpl. rewrite list_lookup_fmap. unfold all_but_last.
    rewrite lookup_take_lt by done. by rewrite Hn.
  - simpl. eexists. split; [done|]. unfold py_repeat.
    apply lookup_replicate_2. lia.
Qed.

(** The lists the decoder returns have one entry per parameter axis, and
    the scalar entries are those read before the loop. *)
Lemma read_ndArch_lengths fname fs d bl info :
  read_ndArch fname fs = Ok (d, bl, info) →
  ∃ cv ns us ks,
    parse_name fname = Ok cv
    ∧ class info = Some cv.1 ∧ version info = Some cv.2
    ∧ par_names info = Some ns ∧ par_units info = Some us
    ∧ par_axistype info = Some ks
    ∧ length bl = (length (shape d) - 1)%nat
    ∧ length ns = (length (shape d) - 1)%nat
    ∧ length us = (length (shape d) - 1)%nat
    ∧ length ks = (length (shape d) - 1)%nat.
Proof.
  intros Hr.
  apply read_ndArch_inv in Hr
    as (f & cv & base & c0 & c1 & nw & Hcv & _ & -> & _ & _ & _ & Hl).
  simpl in Hl. apply read_loop_fixed in Hl as (Hs & Hlen & Hbl).
  simpl in *. destruct Hs as (_ & Hc & Hv & _).
  destruct Hlen as (Hn & Hu & Hk). simpl in *.
  destruct (par_names info) as [ns|]; [|done].
  destruct (par_units info) as [us|]; [|done].
  destruct (par_axistype info) as [ks|]; [|done].
  exists cv, ns, us, ks. simplify_eq/=.
  unfold py_repeat in *. rewrite !length_replicate in *.
  rewrite length_fmap in Hbl. unfold all_but_last in Hbl.
  rewrite length_take in Hbl. split_and!; try done; lia.
Qed.

Lemma read_ndArch_total fname fs f cv :
  parse_name fname = Ok cv → fs !! fname = Some f → shape (dat f) ≠ [] →
  is_Some (hdr f !! "CRVAL1") → is_Some (hdr f !! "CDELT1") →
  is_Some (hdr f !! "NAXIS1") →
  (∀ i n, (i < length (shape (dat f)) - 1)%nat → shape (dat f) !! i = Some n →
          ∃ b, decoded_baseline (hdr f)
                 (axis_number (length (shape (dat f))) i) n = Ok b) →
  ∃ bl info, read_ndArch fname fs = Ok (dat f, bl, info).
Proof.
  intros Hcv Hf Hsh [c0 Hc0] [c1 Hc1] [nw Hnw] Hax.
  unfold read_ndArch, getheader.
  rewrite (proj2 (getdata_Ok fname fs (dat f))) by eauto.
  rewrite Hcv, Hf. simpl.
  destruct (py_index_last_total (split "/" fname)) as [base ->];
    [apply split_nonempty|]. simpl.
  unfold header_get at 1 2 3. rewrite Hc0, Hc1, Hnw. simpl.
  set (info0 := mk_infodict _ _ _ _ _ _ _ _ _ _).
  assert (∃ info1, (if header_has (hdr f) "BUNIT"
                    then v <- header_get (hdr f) "BUNIT" ;;
                         Ok (set_fluxunit v info0)
                    else Ok info0) = Ok info1
                   ∧ is_Some (par_names info1) ∧ is_Some (par_units info1)
                   ∧ is_Some (par_axistype info1)) as (info1 & -> & Hi1).
  { destruct (header_has (hdr f) "BUNIT") eqn:Hb.
    - apply header_has_true in Hb as [v Hv]. unfold header_get. rewrite Hv.
      simpl. eauto 6.
    - subst info0. eauto 6. }
  simpl.
  destruct (for_each_total
    (read_axis (dat f) (hdr f) (Z.of_nat (length (shape (dat f))) - 1))
    (λ s, is_Some (par_names s.2) ∧ is_Some (par_units s.2)
          ∧ is_Some (par_axistype s.2))
    (xrange (Z.of_nat (length (shape (dat f))) - 1))
    (map index_baseline (all_but_last (shape (dat f))), info1))
    as (st' & -> & _); [|done|simpl; eauto].
  intros s i Hi (Hns & Hus & Hks). apply elem_of_xrange in Hi.
  destruct (lookup_lt_is_Some_2 (shape (dat f)) i) as [n Hn]; [lia|].
  destruct (Hax i n) as [b Hb]; [lia|done|].
  destruct (read_axis_total _ _ _ s _ _ _ Hn Hb) as [s' Hs']; [done..|].
  exists s'. split; [done|].
  apply read_axis_fixed in Hs' as (_ & (Hl1 & Hl2 & Hl3) & _).
  destruct Hns as [? Hns], Hus as [? Hus], Hks as [? Hks].
  rewrite Hns in Hl1. rewrite Hus in Hl2. rewrite Hks in Hl3.
  destruct (par_names s'.2), (par_units s'.2), (par_axistype s'.2);
    simplify_eq/=; eauto.
Qed.

End Decoder.

(** * The claims *)

Section Claims.
Context {num : Type} `{Numeric num}.

Implicit Types (h : gmap string (pyval num)) (data : ndarray num).
Implicit Types (baselines : list (list (pyval num))) (info : infodict num).
Implicit Types (fs : gmap string (fitsfile num)) (f : fitsfile num).

(** C4.  A one-dimensional archive (wavelength axis only) whose file name
    has its class and version tokens and whose header carries CRVAL1,
    CDELT1 and NAXIS1 decodes without error, and the list of baselines is
    empty. *)
Theorem C4_zero_parameter_archive fname fs f cv :
  parse_name fname = Ok cv → fs !! fname = Some f →
  length (shape (dat f)) = 1%nat →
  is_Some (hdr f !! "CRVAL1") → is_Some (hdr f !! "CDELT1") →
  is_Some (hdr f !! "NAXIS1") →
  ∃ info, read_ndArch fname fs = Ok (dat f, [], info).
Proof.
  intros Hcv Hf Hrank Hc0 Hc1 Hnw.
  destruct (read_ndArch_total fname fs f cv) as (bl & info & Hr);
    [done|done|by destruct (shape (dat f))|done..| |].
  { intros i n Hi. lia. }
  exists info. rewrite Hr. repeat f_equal.
  apply read_ndArch_lengths in Hr
    as (cv' & ns & us & ks & _ & _ & _ & _ & _ & _ & Hbl & _).
  rewrite Hrank in Hbl. by destruct bl.
Qed.


(** C6 (as amended).  For a file name that ends in [.fits], the class and
    the version are the last two ['-']-separated tokens of the text before
    that extension, and they are what the decoder returns; when that text
    has no ['-'] at all, the name parse, and with it the decoder, fails
    with [IndexError]. *)
Theorem C6_name_tokens (pre cls ver : string) fs :
  free_of "-" cls = true → free_of "-" ver = true →
  (pre = "" ∨ ∃ p, pre = p +:+ "-") →
  let fname := (pre +:+ cls +:+ "-" +:+ ver) +:+ ".fits" in
  parse_name fname = Ok (cls, ver)
  ∧ (∀ d bl info, read_ndArch fname fs = Ok (d, bl, info) →
                  class info = Some cls ∧ version info = Some ver)
  ∧ (∀ root, free_of "-" root = true →
             parse_name (root +:+ ".fits") = Raise IndexError
             ∧ read_ndArch (root +:+ ".fits") fs = Raise IndexError).
Proof.
  intros Hc Hv Hpre fname.
  assert (parse_name fname = Ok (cls, ver)) as Hparse.
  { unfold fname. rewrite parse_name_fits.
    destruct (split_class_version pre cls ver Hc Hv Hpre) as [l ->].
    rewrite py_index_last_but_one. simpl.
    replace (l ++ [cls; ver]) with ((l ++ [cls]) ++ [ver])
      by (by rewrite <-app_assoc).
    by rewrite py_index_last. }
  split_and!; [done| |].
  - intros d bl info Hr.
    apply read_ndArch_lengths in Hr
      as (cv & ns & us & ks & Hcv & Hcl & Hve & _).
    rewrite Hparse in Hcv. by simplify_eq.
  - intros root Hroot.
    assert (parse_name (root +:+ ".fits") = Raise IndexError) as Hp.
    { rewrite parse_name_fits, split_free by done. done. }
    split; [done|]. unfold read_ndArch. by rewrite Hp.
Qed.

(** C8 (as amended).  The header written by the encoder has a BUNIT card
    exactly when the info dictionary has the key [fluxunit], and the card
    holds the value of that key, the empty string included. *)
Theorem C8_bunit_follows_key data baselines info fs fs' :
  write_ndArch data baselines info fs = Ok fs' →
  ∃ name f, filename info = Some name ∧ fs' !! name = Some f
            ∧ dat f = data ∧ hdr f !! "BUNIT" = fluxunit info.
Proof.
  intros (name & h & Hname & Hh & ->)%write_ndArch_Ok.
  exists name, (mk_fitsfile h data). rewrite lookup_insert_eq.
  split_and!; [done..|]. simpl.
  destruct (write_header_frame _ _ _ _ "BUNIT" Hh) as (h0 & Hh0 & ->).
  - intros z Hz Ho. apply owned_not_structural in Ho as [Ho _]; [|lia].
    apply Ho. set_solver.
  - by eapply write_prologue_BUNIT.
Qed.

(** C10.  The encoder always writes the name and the unit of the
    wavelength axis; the decoder never consults them, so that two headers
    that differ only in CNAME1 and CUNIT1 decode to the same result; and
    the lists of names and units it returns have one entry per parameter
    axis. *)
Theorem C10_wavelength_name_not_recovered :
  (∀ data baselines info fs fs',
     write_ndArch data baselines info fs = Ok fs' →
     ∃ name f, filename info = Some name ∧ fs' !! name = Some f
               ∧ hdr f !! "CNAME1" = Some (VStr "loglam")
               ∧ hdr f !! "CUNIT1" = Some (VStr "log10(Angstroms)"))
  ∧ (∀ fname fs f h',
       fs !! fname = Some f →
       (∀ k, k ≠ "CNAME1" → k ≠ "CUNIT1" → h' !! k = hdr f !! k) →
       read_ndArch fname (<[fname := mk_fitsfile h' (dat f)]> fs)
       = read_ndArch fname fs)
  ∧ (∀ fname fs d bl info,
       read_ndArch fname fs = Ok (d, bl, info) →
       ∃ ns us, par_names info = Some ns ∧ par_units info = Some us
                ∧ length ns = (length (shape d) - 1)%nat
                ∧ length us = (length (shape d) - 1)%nat).
Proof.
  split_and!.
  - intros data baselines info fs fs' (name & h & Hname & Hh & ->)%write_ndArch_Ok.
    exists name, (mk_fitsfile h data). rewrite lookup_insert_eq.
    split_and!; [done..| |]; simpl.
    + destruct (write_header_frame _ _ _ _ "CNAME1" Hh) as (h0 & Hh0 & ->).
      * intros z Hz Ho. by eapply (owned_not_axis1 z _ "CNAME"); [..|set_solver| ].
      * by apply write_prologue_wavelength in Hh0 as (? & _).
    + destruct (write_header_frame _ _ _ _ "CUNIT1" Hh) as (h0 & Hh0 & ->).
      * intros z Hz Ho. by eapply (owned_not_axis1 z _ "CUNIT"); [..|set_solver| ].
      * by apply write_prologue_wavelength in Hh0 as (_ & ? & _).
  - intros fname fs f h' Hf Hagree.
    unfold read_ndArch, getdata, getheader.
    rewrite lookup_insert_eq, Hf. simpl.
    destruct (parse_name fname) as [cv|]; simpl; [|done].
    destruct (shape (dat f)) as [|n0 sh0] eqn:Hsh; simpl; [done|].
    destruct (py_index (split "/" fname) (-1)) as [base|]; simpl; [|done].
    unfold header_get at 1 2 3 5 6 7, header_has at 1 2.
    rewrite !Hagree by done.
    destruct (hdr f !! "CRVAL1"); simpl; [|done].
    destruct (hdr f !! "CDELT1"); simpl; [|done].
    destruct (hdr f !! "NAXIS1"); simpl; [|done].
    assert (header_get h' "BUNIT" = header_get (hdr f) "BUNIT") as ->
      by (unfold header_get; by rewrite Hagree).
    destruct (if bool_decide _ then _ else _) as [info1|]; simpl; [|done].
    erewrite for_each_ext; [done|].
    intros s i Hi. apply read_axis_ext. intros k Ho. apply Hagree.
    + apply (owned_not_axis1
               (Z.of_nat (length (shape (dat f))) - 1 + 1 - Z.of_nat i) k
               "CNAME"); [by apply axis_number_ge|done|set_solver].
    + apply (owned_not_axis1
               (Z.of_nat (length (shape (dat f))) - 1 + 1 - Z.of_nat i) k
               "CUNIT"); [by apply axis_number_ge|done|set_solver].
  - intros fname fs d bl info Hr.
    apply read_ndArch_lengths in Hr
      as (cv & ns & us & ks & _ & _ & _ & Hns & Hus & _ & _ & ? & ? & _).
    by exists ns, us.
Qed.

End Claims.

Section ClaimsDecoder.
Context {num : Type} `{Numeric num}.

Implicit Types (fs : gmap string (fitsfile num)) (f : fitsfile num).
Implicit Types (bl : list (list (pyval num))) (info : infodict num).

(** C2.  For a parameter axis whose header carries the regular triple with
    numeric values, the decoder returns the kind regular and the baseline
    [value[k] = (k + 1 - ref_pixel) * increment + ref_value]; with
    reference pixel 1, in an arithmetic where [(k + 1) - 1 = k] on the
    pixel numbers and addition commutes, this is the progression
    [v0, v0 + d, ..., v0 + (L - 1) d]. *)
Theorem C2_regular_reconstruction fname fs f bl info i L p v0 d :
  read_ndArch fname fs = Ok (dat f, bl, info) → fs !! fname = Some f →
  (i < length (shape (dat f)) - 1)%nat → shape (dat f) !! i = Some L →
  let ax := axis_number (length (shape (dat f))) i in
  hdr f !! ("CRPIX" +:+ ax) = Some (VNum p) →
  hdr f !! ("CRVAL" +:+ ax) = Some (VNum v0) →
  hdr f !! ("CDELT" +:+ ax) = Some (VNum d) →
  (par_axistype info ≫= (.!! i)) = Some "regular"
  ∧ bl !! i
    = Some (map (λ k : nat,
                   VNum (nadd (nmul (nsub (of_Z (Z.of_nat k + 1)) p) d) v0))
                (seq 0 L))
  ∧ (p = of_Z 1 →
     (∀ k, 0 ≤ k < Z.of_nat L → nsub (of_Z (k + 1)) (of_Z 1) = of_Z k) →
     (∀ x y, nadd x y = nadd y x) →
     bl !! i
     = Some (map (λ k : nat, VNum (nadd v0 (nmul (of_Z (Z.of_nat k)) d)))
                 (seq 0 L))).
Proof.
  intros Hr Hf Hi HL ax Hp Hv Hd.
  destruct (read_ndArch_axis _ _ _ _ _ _ _ Hr Hf Hi HL)
    as (b & ks & Hdec & Hb & Hks & Hk).
  fold ax in Hdec, Hk.
  assert (regular_present (hdr f) ax = true) as Hreg.
  { unfold regular_present. rewrite !andb_true_iff, !header_has_true. eauto. }
  unfold detect_kind in Hk. unfold decoded_baseline in Hdec.
  rewrite Hreg in Hk, Hdec. unfold header_get in Hdec.
  rewrite Hp, Hd, Hv in Hdec. simpl in Hdec. simplify_eq.
  unfold regular_baseline in Hb. rewrite xrange_of_nat in Hb.
  split_and!; [by rewrite Hks|done|].
  intros -> Hsub Hcomm. rewrite Hb. f_equal.
  apply map_ext_in. intros k Hk'%in_seq.
  by rewrite Hsub, Hcomm by lia.
Qed.

(** C3.  A parameter axis that lacks one keyword of its PV family is not
    classified as irregular: its kind is the first of regular, labeled and
    named whose keywords are all present, and index when none is, in which
    case the baseline is [1, 2, ..., L]. *)
Theorem C3_all_or_nothing fname fs f bl info i L j :
  read_ndArch fname fs = Ok (dat f, bl, info) → fs !! fname = Some f →
  (i < length (shape (dat f)) - 1)%nat → shape (dat f) !! i = Some L →
  let ax := axis_number (length (shape (dat f))) i in
  (j < L)%nat → hdr f !! pixel_key "PV" ax j = None →
  ∃ kind,
    (par_axistype info ≫= (.!! i)) = Some kind
    ∧ kind ≠ "irregular"
    ∧ kind = (if regular_present (hdr f) ax then "regular"
              else if family_present (hdr f) "PS" ax L then "labeled"
              else if family_present (hdr f) "N" ax L then "named"
              else "index")
    ∧ (regular_present (hdr f) ax = false →
       family_present (hdr f) "PS" ax L = false →
       family_present (hdr f) "N" ax L = false →
       kind = "index"
       ∧ bl !! i = Some (map (λ k : nat, VNum (of_Z (Z.of_nat k + 1)))
                             (seq 0 L))).
Proof.
  intros Hr Hf Hi HL ax Hj Hpv.
  destruct (read_ndArch_axis _ _ _ _ _ _ _ Hr Hf Hi HL)
    as (b & ks & Hdec & Hb & Hks & Hk).
  fold ax in Hdec, Hk.
  pose proof (family_present_false _ _ _ _ _ Hj Hpv) as Hirr.
  unfold detect_kind in Hk. unfold decoded_baseline in Hdec.
  rewrite Hirr in Hk, Hdec.
  eexists. split; [by rewrite Hks|].
  split_and!.
  - by repeat case_match.
  - done.
  - intros Hreg Hps Hn. rewrite Hreg, Hps, Hn in Hdec |- *.
    split; [done|]. simplify_eq. rewrite Hb. unfold index_baseline.
    by rewrite xrange_of_nat.
Qed.

End ClaimsDecoder.

(** ** Encoding, then decoding *)

Section RoundTrip.
Context {num : Type} `{Numeric num}.

Implicit Types (h : gmap string (pyval num)) (data : ndarray num).
Implicit Types (baselines : list (list (pyval num))) (info : infodict num).
Implicit Types (fs : gmap string (fitsfile num)) (f : fitsfile num).

Lemma length_key_family pre ax L : length (key_family pre ax L) = L.
Proof.
  unfold key_family. by rewrite length_map, xrange_of_nat, length_seq.
Qed.

Lemma lookup_key_family pre ax L j k :
  key_family pre ax L !! j = Some k → (j < L)%nat ∧ k = pixel_key pre ax j.
Proof.
  intros Hj. pose proof (lookup_lt_Some _ _ _ Hj) as Hlt.
  rewrite length_key_family in Hlt. split; [done|].
  pose proof (index_key_family pre ax L j Hlt) as Hi%index_Ok. congruence.
Qed.

(** A family that was written is detected and read back. *)
Lemma family_written pre ax L baselines ipar h1 ha b :
  write_family (key_family pre ax L) baselines ipar L h1 = Ok ha →
  baselines !! ipar = Some b → length b = L →
  family_present ha pre ax L = true
  ∧ get_all ha (key_family pre ax L) = Ok b.
Proof.
  intros Hw Hb Hlen. split.
  - apply family_present_true. intros j Hj.
    destruct (write_family_lookup _ _ _ _ _ _ _ j Hw Hj) as (? & v & _ & _ & ->).
    eauto.
  - apply get_all_values; [by rewrite length_key_family|].
    intros j k [Hj ->]%lookup_key_family.
    destruct (write_family_lookup _ _ _ _ _ _ _ j Hw Hj)
      as (b' & v & Hb' & Hv & ->).
    congruence.
Qed.

(** A family that was not written is not detected on an axis that is not
    empty. *)
Lemma family_not_written pre pre' z L baselines ipar h1 ha :
  write_family (key_family pre' (str z) L) baselines ipar L h1 = Ok ha →
  0 ≤ z → pre ∈ ["PV"; "PS"; "N"] → pre' ∈ ["PV"; "PS"; "N"] → pre ≠ pre' →
  h1 !! pixel_key pre (str z) 0 = None → (1 ≤ L)%nat →
  family_present ha pre (str z) L = false.
Proof.
  intros Hw Hz Hpre Hpre' Hne Hh1 HL.
  apply (family_present_false _ _ _ _ 0%nat); [lia|].
  rewrite (write_family_frame _ _ _ _ _ _ _ _ Hw); [done|].
  intros j Heq. by apply pixel_key_family in Heq.
Qed.

Lemma regular_not_written pre ax L baselines ipar h1 ha :
  write_family (key_family pre ax L) baselines ipar L h1 = Ok ha →
  pre ∈ ["PV"; "PS"; "N"] → h1 !! ("CRPIX" +:+ ax) = None →
  regular_present ha ax = false.
Proof.
  intros Hw Hpre Hh1. unfold regular_present.
  assert (header_has ha ("CRPIX" +:+ ax) = false) as ->; [|done].
  apply header_has_false.
  rewrite (write_family_frame _ _ _ _ _ _ _ _ Hw); [done|].
  intros j Heq. symmetry in Heq.
  eapply pixel_key_not_scalar; [done| |done]. set_solver.
Qed.

(** What the pass of the encoder over a valid axis leaves in the header is
    detected by the decoder as the kind of the axis, and read back as its
    baseline. *)
Lemma axis_round_trip data baselines info npars hb ha i kinds kind b L :
  0 ≤ npars + 1 - Z.of_nat i →
  write_axis data baselines info npars hb i = Ok ha →
  (∀ k, owned (str (npars + 1 - Z.of_nat i)) k → hb !! k = None) →
  par_axistype info = Some kinds → kinds !! i = Some kind →
  baselines !! i = Some b → shape data !! i = Some L →
  valid_axis kind b L →
  detect_kind ha (str (npars + 1 - Z.of_nat i)) L = kind
  ∧ decoded_baseline ha (str (npars + 1 - Z.of_nat i)) L = Ok b.
Proof.
  intros Hz Hw Hhb Hkinds Hkind Hb HL (HL1 & Hlen & Hvalid).
  apply write_axis_inv in Hw as (kinds' & kind' & h1 & Hkinds' & Hkind' & Hh1 & Hw).
  set (z := npars + 1 - Z.of_nat i) in *.
  rewrite Hkinds in Hkinds'. injection Hkinds' as <-.
  rewrite Hkind in Hkind'. injection Hkind' as <-.
  assert (∀ pre, pre ∈ ["CRPIX"; "CRVAL"; "CDELT"] →
                 h1 !! (pre +:+ str z) = None) as Hsc.
  { intros pre Hpre. rewrite Hh1.
    - apply Hhb. constructor. set_solver.
    - elem_cases Hpre; key_ne.
    - elem_cases Hpre; key_ne. }
  assert (∀ pre j, pre ∈ ["PV"; "PS"; "N"] →
                   h1 !! pixel_key pre (str z) j = None) as Hpx.
  { intros pre j Hpre. rewrite Hh1.
    - apply Hhb. by constructor.
    - apply pixel_key_not_scalar; [done|set_solver].
    - apply pixel_key_not_scalar; [done|set_solver]. }
  unfold detect_kind, decoded_baseline.
  destruct Hvalid
    as [(-> & x0 & x1 & H0 & H1 & Hprog)
       |[[-> _]|[[-> _]|[[-> _]|[-> ->]]]]].
  - change (String.eqb (strip "regular") "regular") with true in Hw.
    destruct Hw as (b' & b0 & b1 & y0 & y1 & Hb' & Hb0 & Hb1 & Hy1 & Hy0 & ->).
    simplify_eq/=.
    set (ha := header_set ("CDELT" +:+ str z) _ _).
    assert (ha !! ("CRPIX" +:+ str z) = Some (VNum one_float)) as Hc1.
    { unfold ha. rewrite !lookup_header_set_ne by key_ne.
      apply lookup_header_set_eq. }
    assert (ha !! ("CRVAL" +:+ str z) = Some (VNum y0)) as Hc2.
    { unfold ha. rewrite !lookup_header_set_ne by key_ne.
      apply lookup_header_set_eq. }
    assert (ha !! ("CDELT" +:+ str z) = Some (VNum (nsub y1 y0))) as Hc3.
    { unfold ha. apply lookup_header_set_eq. }
    assert (regular_present ha (str z) = true) as ->.
    { unfold regular_present. rewrite !andb_true_iff, !header_has_true.
      rewrite Hc1, Hc2, Hc3. eauto. }
    unfold header_get. rewrite Hc1, Hc2, Hc3. simpl.
    done.
  - change (String.eqb (strip "irregular") "regular") with false in Hw.
    change (String.eqb (strip "irregular") "irregular") with true in Hw.
    destruct Hw as (n & Hn & Hw). rewrite HL in Hn. injection Hn as <-.
    rewrite (regular_not_written _ _ _ _ _ _ _ Hw) by (set_solver || apply Hsc; set_solver).
    by destruct (family_written _ _ _ _ _ _ _ _ Hw Hb Hlen) as [-> ->].
  - change (String.eqb (strip "labeled") "regular") with false in Hw.
    change (String.eqb (strip "labeled") "irregular") with false in Hw.
    change (String.eqb (strip "labeled") "labeled") with true in Hw.
    destruct Hw as (n & Hn & Hw). rewrite HL in Hn. injection Hn as <-.
    rewrite (regular_not_written _ _ _ _ _ _ _ Hw) by (set_solver || apply Hsc; set_solver).
    rewrite (family_not_written "PV" _ _ _ _ _ _ _ Hw)
      by (done || lia || set_solver || apply Hpx; set_solver).
    by destruct (family_written _ _ _ _ _ _ _ _ Hw Hb Hlen) as [-> ->].
  - change (String.eqb (strip "named") "regular") with false in Hw.
    change (String.eqb (strip "named") "irregular") with false in Hw.
    change (String.eqb (strip "named") "labeled") with false in Hw.
    change (String.eqb (strip "named") "named") with true in Hw.
    destruct Hw as (n & Hn & Hw). rewrite HL in Hn. injection Hn as <-.
    rewrite (regular_not_written _ _ _ _ _ _ _ Hw) by (set_solver || apply Hsc; set_solver).
    rewrite (family_not_written "PV" _ _ _ _ _ _ _ Hw)
      by (done || lia || set_solver || apply Hpx; set_solver).
    rewrite (family_not_written "PS" _ _ _ _ _ _ _ Hw)
      by (done || lia || set_solver || apply Hpx; set_solver).
    by destruct (family_written _ _ _ _ _ _ _ _ Hw Hb Hlen) as [-> ->].
  - change (String.eqb (strip "index") "regular") with false in Hw.
    change (String.eqb (strip "index") "irregular") with false in Hw.
    change (String.eqb (strip "index") "labeled") with false in Hw.
    change (String.eqb (strip "index") "named") with false in Hw.
    cbv iota in Hw. subst ha.
    assert (regular_present h1 (str z) = false) as ->.
    { unfold regular_present.
      assert (header_has h1 ("CRPIX" +:+ str z) = false) as ->; [|done].
      apply header_has_false, Hsc. set_solver. }
    rewrite !(family_present_false _ _ _ _ 0%nat)
      by (lia || apply Hpx; set_solver).
    done.
Qed.

(** The header the encoder builds for a valid archive, with what the
    decoder will find in it for every parameter axis. *)
Lemma write_header_valid data baselines info kinds :
  valid_archive data baselines info → par_axistype info = Some kinds →
  ∃ h, write_header data baselines info = Ok h
       ∧ is_Some (h !! "CRVAL1") ∧ is_Some (h !! "CDELT1")
       ∧ is_Some (h !! "NAXIS1")
       ∧ ∀ i kind b L,
           kinds !! i = Some kind → baselines !! i = Some b →
           shape data !! i = Some L →
           detect_kind h (axis_number (length (shape data)) i) L = kind
           ∧ decoded_baseline h (axis_number (length (shape data)) i) L
             = Ok b.
Proof.
  intros (Hsh & _ & _ & [c0 Hc0] & [c1 Hc1] & Hns & Hus & Hbl & kinds'
          & Hkinds' & Hklen & Hax) Hkinds.
  rewrite Hkinds in Hkinds'. injection Hkinds' as <-.
  set (npars := Z.of_nat (length (shape data)) - 1).
  assert (∃ h0, write_prologue data info = Ok h0) as [h0 Hh0].
  { unfold write_prologue. rewrite Hc0, Hc1. simpl. eauto. }
  assert (∀ i, Z.of_nat i < npars →
               ∃ kind b L, kinds !! i = Some kind ∧ baselines !! i = Some b
                           ∧ shape data !! i = Some L) as Hentry.
  { intros i Hi.
    destruct (lookup_lt_is_Some_2 kinds i) as [kind Hkind]; [lia|].
    destruct (lookup_lt_is_Some_2 baselines i) as [b Hb]; [lia|].
    destruct (lookup_lt_is_Some_2 (shape data) i) as [L HL]; [lia|].
    eauto 6. }
  destruct (for_each_total (write_axis data baselines info npars)
              (λ _, True) (rev (xrange npars)) h0) as (h & Hh & _); [|done|].
  { intros h1 i Hi _. rewrite elem_of_rev in Hi. apply elem_of_xrange in Hi.
    destruct (Hentry i Hi) as (kind & b & L & Hkind & Hb & HL).
    destruct (write_axis_total data baselines info npars h1 i kinds kind b L)
      as [h2 Hh2]; eauto.
    - intros ns Hn. specialize (Hns ns Hn). lia.
    - intros us Hu. specialize (Hus us Hu). lia. }
  assert (write_header data baselines info = Ok h) as Hwh.
  { unfold write_header. rewrite Hh0. simpl. exact Hh. }
  exists h. split; [done|].
  assert (∀ pre, pre ∈ ["CRVAL"; "CDELT"] →
                 h !! (pre +:+ "1") = h0 !! (pre +:+ "1")) as Hwave.
  { intros pre Hpre.
    destruct (write_header_frame _ _ _ _ (pre +:+ "1") Hwh) as (h0' & Hh0' & ->);
      [|congruence].
    intros z Hz Ho. eapply (owned_not_axis1 z _ pre); [done..|set_solver|done]. }
  apply write_prologue_wavelength in Hh0 as Hp.
  destruct Hp as (_ & _ & _ & Hv & Hd & Hn).
  split_and!.
  - change "CRVAL1" with ("CRVAL" +:+ "1").
    rewrite Hwave by set_solver. change ("CRVAL" +:+ "1") with "CRVAL1".
    rewrite Hv, Hc0. eauto.
  - change "CDELT1" with ("CDELT" +:+ "1").
    rewrite Hwave by set_solver. change ("CDELT" +:+ "1") with "CDELT1".
    rewrite Hd, Hc1. eauto.
  - destruct (write_header_frame _ _ _ _ "NAXIS1" Hwh) as (h0' & Hh0' & ->).
    + intros z Hz Ho. apply owned_not_structural in Ho as [_ Ho]; [|lia].
      by apply (Ho "1").
    + rewrite Hh0 in Hh0'. injection Hh0' as <-. by apply Hn.
  - intros i kind b L Hkind Hb HL.
    assert (Z.of_nat i < npars) as Hi.
    { apply lookup_lt_Some in Hkind. lia. }
    destruct (write_loop_axis data baselines info h0 h i Hh Hi)
      as (hb & ha & Hstep & Hown).
    { intros z k Hz Ho. by eapply write_prologue_owned. }
    fold npars in Hstep, Hown. unfold axis_number. fold npars.
    destruct (decoded_ext h ha (str (npars + 1 - Z.of_nat i)) L) as [-> ->].
    { intros k Ho. by apply Hown. }
    eapply axis_round_trip; eauto; [lia|].
    intros k Ho. by apply Hown.
Qed.

(** Encoding over a container that keeps what it is handed, then
    decoding: a valid archive comes back with its array, its baselines and
    its kinds. *)
Lemma round_trip_kept data baselines info fs name kinds :
  valid_archive data baselines info →
  filename info = Some name → par_axistype info = Some kinds →
  ∃ fs' info',
    write_ndArch data baselines info fs = Ok fs'
    ∧ read_ndArch name fs' = Ok (data, baselines, info')
    ∧ par_axistype info' = Some kinds.
Proof.
  intros Hvalid Hname Hkinds.
  destruct (write_header_valid _ _ _ _ Hvalid Hkinds)
    as (h & Hwh & Hc0 & Hc1 & Hnw & Hax).
  destruct Hvalid as (Hsh & _ & (name' & cv & Hname' & Hcv) & _ & _ & _ & _
                      & Hbl & kinds' & Hkinds' & Hklen & _).
  rewrite Hname in Hname'. injection Hname' as <-.
  rewrite Hkinds in Hkinds'. injection Hkinds' as <-.
  set (f := mk_fitsfile h data).
  exists (<[name := f]> fs).
  assert (write_ndArch data baselines info fs = Ok (<[name := f]> fs)) as Hw.
  { unfold write_ndArch. rewrite Hwh. simpl. by rewrite Hname. }
  assert (<[name := f]> fs !! name = Some f) as Hf by apply lookup_insert_eq.
  assert (∀ i, (i < length (shape data) - 1)%nat →
               ∃ kind b L, kinds !! i = Some kind ∧ baselines !! i = Some b
                           ∧ shape data !! i = Some L) as Hentry.
  { intros i Hi.
    destruct (lookup_lt_is_Some_2 kinds i) as [kind Hkind]; [lia|].
    destruct (lookup_lt_is_Some_2 baselines i) as [b Hb]; [lia|].
    destruct (lookup_lt_is_Some_2 (shape data) i) as [L HL]; [lia|].
    eauto 6. }
  destruct (read_ndArch_total name (<[name := f]> fs) f cv)
    as (bl & info' & Hr); [done..| |].
  { intros i n Hi Hn. simpl in *.
    destruct (Hentry i Hi) as (kind & b & L & Hkind & Hb & HL).
    rewrite HL in Hn. injection Hn as <-. exists b.
    by destruct (Hax i kind b L). }
  simpl in Hr.
  pose proof (read_ndArch_lengths _ _ _ _ _ Hr)
    as (cv' & ns & us & ks & _ & _ & _ & _ & _ & Hks & Hlbl & _ & _ & Hlks).
  assert (bl = baselines ∧ ks = kinds) as [-> ->].
  { split; apply list_eq; intros i.
    - destruct (decide (i < length (shape data) - 1)%nat) as [Hi|Hi].
      + destruct (Hentry i Hi) as (kind & b & L & Hkind & Hb & HL).
        destruct (read_ndArch_axis _ _ f _ _ i L Hr Hf Hi HL)
          as (b' & ks' & Hdec & Hb' & _ & _).
        destruct (Hax i kind b L) as [_ Hdec']; [done..|].
        simpl in Hdec. rewrite Hdec' in Hdec. injection Hdec as <-.
        by rewrite Hb, Hb'.
      + rewrite !lookup_ge_None_2; [done|lia..].
    - destruct (decide (i < length (shape data) - 1)%nat) as [Hi|Hi].
      + destruct (Hentry i Hi) as (kind & b & L & Hkind & Hb & HL).
        destruct (read_ndArch_axis _ _ f _ _ i L Hr Hf Hi HL)
          as (b' & ks' & _ & _ & Hks' & Hk').
        destruct (Hax i kind b L) as [Hdet _]; [done..|].
        simpl in Hk'. rewrite Hdet in Hk'. rewrite Hks in Hks'.
        injection Hks' as <-. by rewrite Hkind, Hk'.
      + rewrite !lookup_ge_None_2; [done|lia..]. }
  by exists info'.
Qed.


(** *** The encoder over a library *)

(** The library stores an archive exactly when it keeps the cards of the
    header that the encoder composes for it. *)
Lemma stored_exactly_intro (lib : fits_library num) data baselines info h :
  write_header data baselines info = Ok h →
  image lib data = Ok data →
  (∀ name, filename info = Some name → creatable lib name = true) →
  cards_kept lib h →
  stored_exactly lib data baselines info.
Proof.
  intros Hh Himage Hname Hcards. split_and!; [done..|].
  intros h' Hh'. rewrite Hh in Hh'. by injection Hh' as <-.
Qed.

Lemma header_set_via_kept (lib : fits_library num) key v h :
  card lib key v = Ok v → header_set_via lib key v h = Ok (header_set key v h).
Proof. intros Hv. unfold header_set_via. by rewrite Hv. Qed.

(** A family is written over the library as over the container, when the
    library keeps the cards of the family. *)
Lemma write_family_via_kept (lib : fits_library num) pre ax baselines ipar n
    h h' :
  write_family (key_family pre ax n) baselines ipar n h = Ok h' →
  (∀ j v, h' !! pixel_key pre ax j = Some v →
          card lib (pixel_key pre ax j) v = Ok v) →
  write_family_via lib (key_family pre ax n) baselines ipar n h = Ok h'.
Proof.
  intros Hw Hkept. rewrite <-Hw. unfold write_family_via, write_family.
  apply for_each_ext. intros s j Hj.
  apply elem_of_xrange in Hj.
  destruct (write_family_lookup _ _ _ _ _ _ _ j Hw) as (b & v & Hb & Hv & Hl);
    [lia|].
  rewrite index_key_family by lia. simpl.
  rewrite (proj2 (index_Ok baselines ipar b) Hb). simpl.
  rewrite (proj2 (index_Ok b j v) Hv). simpl.
  apply header_set_via_kept. by apply Hkept.
Qed.

(** A pass of the encoder over the library does what the pass over the
    container does, when the library keeps the cards the pass leaves. *)
Lemma write_axis_via_kept (lib : fits_library num) data baselines info npars
    h ipar h' :
  write_axis data baselines info npars h ipar = Ok h' →
  (∀ k v, owned (str (npars + 1 - Z.of_nat ipar)) k → h' !! k = Some v →
          card lib k v = Ok v) →
  write_axis_via lib data baselines info npars h ipar = Ok h'.
Proof.
  intros Hw Hkept.
  set (ax := str (npars + 1 - Z.of_nat ipar)) in *.
  assert (∀ pre j, pre ∈ ["PV"; "PS"; "N"] →
                   ∀ pre', pre' ∈ ["CNAME"; "CUNIT"] →
                           pixel_key pre ax j ≠ pre' +:+ ax) as Hpk.
  { intros pre j Hpre pre' Hpre'. apply pixel_key_not_scalar; [done|].
    set_solver. }
  assert (∀ hu : gmap string (pyval num),
            h' !! ("CNAME" +:+ ax) = hu !! ("CNAME" +:+ ax)
                ∧ h' !! ("CUNIT" +:+ ax) = hu !! ("CUNIT" +:+ ax) →
                ∀ pre v, pre ∈ ["CNAME"; "CUNIT"] →
                         hu !! (pre +:+ ax) = Some v →
                         card lib (pre +:+ ax) v = Ok v) as Hscalar.
  { intros hu [Hn Hu] pre v Hpre Hv. apply Hkept; [by constructor; set_solver|].
    elem_cases Hpre; congruence. }
  unfold write_axis in Hw. unfold write_axis_via. fold ax in Hw |- *.
  inv_bind Hw as hn Hn. inv_bind Hw as hu Hu.
  inv_bind Hw as kinds Hkinds. inv_bind Hw as kind Hkind.
  assert (h' !! ("CNAME" +:+ ax) = hu !! ("CNAME" +:+ ax)
          ∧ h' !! ("CUNIT" +:+ ax) = hu !! ("CUNIT" +:+ ax)) as Htail.
  { destruct (String.eqb (strip kind) "regular").
    { repeat (inv_bind Hw). simplify_eq.
      rewrite !lookup_header_set_ne; [done|key_ne..]. }
    assert (∀ pre n ha,
              pre ∈ ["PV"; "PS"; "N"] →
              write_family (key_family pre ax n) baselines ipar n hu = Ok ha →
              ha !! ("CNAME" +:+ ax) = hu !! ("CNAME" +:+ ax)
              ∧ ha !! ("CUNIT" +:+ ax) = hu !! ("CUNIT" +:+ ax)) as Hfam.
    { intros pre n ha Hpre Hf.
      split; (eapply write_family_frame; [done|]); intros j Heq;
        symmetry in Heq; revert Heq; apply Hpk; set_solver. }
    destruct (String.eqb (strip kind) "irregular").
    { inv_bind Hw. eapply Hfam; [|done]. set_solver. }
    destruct (String.eqb (strip kind) "labeled").
    { inv_bind Hw. eapply Hfam; [|done]. set_solver. }
    destruct (String.eqb (strip kind) "named").
    { inv_bind Hw. eapply Hfam; [|done]. set_solver. }
    by simplify_eq. }
  assert (hu !! ("CNAME" +:+ ax) = hn !! ("CNAME" +:+ ax)) as Hnu.
  { destruct (par_units info); [|by simplify_eq].
    inv_bind Hu. simplify_eq. apply lookup_header_set_ne. key_ne. }
  assert (match par_names info with
          | Some names =>
              v <- index names ipar ;; header_set_via lib ("CNAME" +:+ ax) v h
          | None => Ok h
          end = Ok hn) as ->.
  { destruct (par_names info) as [ns|]; [|done].
    inv_bind Hn as v Hv. rewrite Hv. simpl. simplify_eq.
    apply header_set_via_kept. apply (Hscalar _ Htail "CNAME"); [set_solver|].
    rewrite Hnu. apply lookup_header_set_eq. }
  simpl.
  assert (match par_units info with
          | Some units =>
              v <- index units ipar ;; header_set_via lib ("CUNIT" +:+ ax) v hn
          | None => Ok hn
          end = Ok hu) as ->.
  { destruct (par_units info) as [us|]; [|done].
    inv_bind Hu as v Hv. rewrite Hv. simpl. simplify_eq.
    apply header_set_via_kept. apply (Hscalar _ Htail "CUNIT"); [set_solver|].
    apply lookup_header_set_eq. }
  simpl. rewrite Hkinds. simpl. rewrite Hkind. simpl.
  destruct (String.eqb (strip kind) "regular").
  { inv_bind Hw as b Hb. inv_bind Hw as b0 Hb0. inv_bind Hw as b1 Hb1.
    inv_bind Hw as x1 Hx1. inv_bind Hw as x0 Hx0. simplify_eq.
    rewrite header_set_via_kept.
    2:{ apply Hkept; [constructor; set_solver|].
        rewrite !lookup_header_set_ne by key_ne. apply lookup_header_set_eq. }
    simpl. rewrite Hb. simpl. rewrite Hb0. simpl.
    rewrite header_set_via_kept.
    2:{ apply Hkept; [constructor; set_solver|].
        rewrite !lookup_header_set_ne by key_ne. apply lookup_header_set_eq. }
    simpl. rewrite Hb1. simpl. rewrite Hx1. simpl. rewrite Hx0. simpl.
    apply header_set_via_kept. apply Hkept; [constructor; set_solver|].
    apply lookup_header_set_eq. }
  assert (∀ pre n,
            pre ∈ ["PV"; "PS"; "N"] →
            write_family (key_family pre ax n) baselines ipar n hu = Ok h' →
            write_family_via lib (key_family pre ax n) baselines ipar n hu
            = Ok h') as Hfam.
  { intros pre n Hpre Hf. apply write_family_via_kept; [done|].
    intros j v Hv. apply Hkept; [by constructor|done]. }
  destruct (String.eqb (strip kind) "irregular").
  { inv_bind Hw as n Hn'. rewrite Hn'. simpl. apply Hfam; [set_solver|done]. }
  destruct (String.eqb (strip kind) "labeled").
  { inv_bind Hw as n Hn'. rewrite Hn'. simpl. apply Hfam; [set_solver|done]. }
  destruct (String.eqb (strip kind) "named").
  { inv_bind Hw as n Hn'. rewrite Hn'. simpl. apply Hfam; [set_solver|done]. }
  done.
Qed.

(** The statements before the loop. *)
Lemma write_prologue_via_kept (lib : fits_library num) data info h0 :
  write_prologue data info = Ok h0 →
  (∀ k v, k ∈ ["BUNIT"; "CNAME1"; "CUNIT1"; "CRPIX1"; "CRVAL1"; "CDELT1"] →
          h0 !! k = Some v → card lib k v = Ok v) →
  write_prologue_via lib data info = Ok h0.
Proof.
  intros (c0 & c1 & Hc0 & Hc1 & ->)%write_prologue_Ok Hkept.
  unfold write_prologue_via. rewrite Hc0, Hc1.
  assert (match fluxunit info with
          | Some u => header_set_via lib "BUNIT" u (PrimaryHDU data)
          | None => Ok (PrimaryHDU data)
          end
          = Ok match fluxunit info with
               | Some u => header_set "BUNIT" u (PrimaryHDU data)
               | None => PrimaryHDU data
               end) as ->.
  { destruct (fluxunit info) as [u|]; [|done].
    apply header_set_via_kept. apply Hkept; [set_solver|].
    rewrite !lookup_header_set_ne by done. apply lookup_header_set_eq. }
  simpl.
  rewrite header_set_via_kept.
  2:{ apply Hkept; [set_solver|].
      rewrite !lookup_header_set_ne by done. apply lookup_header_set_eq. }
  simpl. rewrite header_set_via_kept.
  2:{ apply Hkept; [set_solver|].
      rewrite !lookup_header_set_ne by done. apply lookup_header_set_eq. }
  simpl. rewrite header_set_via_kept.
  2:{ apply Hkept; [set_solver|].
      rewrite !lookup_header_set_ne by done. apply lookup_header_set_eq. }
  simpl. rewrite header_set_via_kept.
  2:{ apply Hkept; [set_solver|].
      rewrite !lookup_header_set_ne by done. apply lookup_header_set_eq. }
  simpl. apply header_set_via_kept. apply Hkept; [set_solver|].
  apply lookup_header_set_eq.
Qed.

(** A loop that ran to the end is matched by any loop whose passes agree
    with its passes on the states it went through. *)
Lemma for_each_simulation {S I} (f g : S → I → result S) l s s' :
  for_each f s l = Ok s' →
  (∀ l1 i l2 sb sa, l = l1 ++ i :: l2 → f sb i = Ok sa →
                    for_each f sa l2 = Ok s' → g sb i = Ok sa) →
  for_each g s l = Ok s'.
Proof.
  revert s. induction l as [|i l IH]; intros s Hl Hfg; simpl in *; [done|].
  inv_bind Hl as s1 Hs1. rewrite (Hfg [] i l s s1) by done. simpl.
  apply IH; [done|]. intros l1 j l2 sb sa -> Hf Hrest.
  by apply (Hfg (i :: l1) j l2).
Qed.

(** The encoder over a library that keeps the cards of the header builds
    the header the encoder over the container builds. *)
Lemma write_header_via_kept (lib : fits_library num) data baselines info h :
  write_header data baselines info = Ok h → cards_kept lib h →
  write_header_via lib data baselines info = Ok h.
Proof.
  intros Hw Hkept. pose proof Hw as Hw'.
  unfold write_header in Hw. inv_bind Hw as h0 Hh0.
  unfold write_header_via.
  rewrite (write_prologue_via_kept lib data info h0 Hh0).
  2:{ intros k v Hk Hv. apply Hkept.
      destruct (write_header_frame _ _ _ _ k Hw') as (h0' & Hh0' & ->);
        [|congruence].
      intros z Hz Ho. elem_cases Hk.
      - apply owned_not_structural in Ho as [Ho _]; [|lia]. set_solver.
      - by eapply (owned_not_axis1 z _ "CNAME"); [..|set_solver|].
      - by eapply (owned_not_axis1 z _ "CUNIT"); [..|set_solver|].
      - by eapply (owned_not_axis1 z _ "CRPIX"); [..|set_solver|].
      - by eapply (owned_not_axis1 z _ "CRVAL"); [..|set_solver|].
      - by eapply (owned_not_axis1 z _ "CDELT"); [..|set_solver|]. }
  simpl. set (npars := Z.of_nat (length (shape data)) - 1) in *.
  assert (NoDup (rev (xrange npars))) as Hnd
    by apply NoDup_ListNoDup, List.NoDup_rev, NoDup_ListNoDup, NoDup_seq.
  eapply for_each_simulation; [exact Hw|].
  intros l1 i l2 sb sa Hsplit Hstep Hrest.
  apply write_axis_via_kept; [done|].
  intros k v Ho Hv. apply Hkept.
  rewrite (write_loop_frame _ _ _ _ _ _ _ k Hrest); [done|].
  rewrite Hsplit in Hnd. apply NoDup_app in Hnd as (_ & _ & Hnd).
  apply NoDup_cons in Hnd as [Hni _].
  assert (∀ j, j ∈ l1 ++ i :: l2 → Z.of_nat j < npars) as Hin.
  { intros j Hj. rewrite <-Hsplit, elem_of_rev in Hj.
    by apply elem_of_xrange. }
  intros j Hj Hoj.
  assert (npars + 1 - Z.of_nat i = npars + 1 - Z.of_nat j) as Heq.
  { assert (Z.of_nat i < npars) by (apply Hin; set_solver).
    assert (Z.of_nat j < npars) by (apply Hin; set_solver).
    apply (owned_inj _ _ k); [lia|lia|done..]. }
  assert (i = j) as -> by lia. done.
Qed.

(** On an input the library stores exactly, the encoder over the library
    does what the encoder over the container does. *)
Lemma write_ndArch_via_kept (lib : fits_library num) data baselines info fs
    fs' :
  write_ndArch data baselines info fs = Ok fs' →
  stored_exactly lib data baselines info →
  write_ndArch_via lib data baselines info fs = Ok fs'.
Proof.
  intros (name & h & Hname & Hh & ->)%write_ndArch_Ok (Himg & Hcre & Hcards).
  unfold write_ndArch_via.
  rewrite (write_header_via_kept lib _ _ _ h Hh) by auto. simpl.
  rewrite Hname. simpl. rewrite (Hcre name Hname), Himg. done.
Qed.


(** C7 (as amended).  The encoder does not compare the baselines with the
    shape of the array: it never fails with a shape-mismatch error; when
    it succeeds on some baselines it succeeds, with the same file, on any
    longer baselines and with any further baselines; and when a pixel of
    an irregular, labeled or named axis has no baseline entry it fails,
    with an exception of the Python run time, and writes nothing. *)
Theorem C7_no_shape_validation data baselines info fs :
  write_ndArch data baselines info fs ≠ Raise AxisShapeMismatchError
  ∧ (∀ baselines' fs',
       extends baselines baselines' →
       write_ndArch data baselines info fs = Ok fs' →
       write_ndArch data baselines' info fs = Ok fs')
  ∧ (∀ ipar kinds kind n j,
       (ipar < length (shape data) - 1)%nat →
       par_axistype info = Some kinds → kinds !! ipar = Some kind →
       strip kind ∈ ["irregular"; "labeled"; "named"] →
       shape data !! ipar = Some n → (j < n)%nat →
       (∀ b, baselines !! ipar = Some b → b !! j = None) →
       ∃ e, write_ndArch data baselines info fs = Raise e ∧ python_exn e).
Proof.
  split_and!.
  - pose proof (raises_python_write_ndArch data baselines info fs) as Hp.
    intros Heq. by rewrite Heq in Hp.
  - intros baselines' fs' Hext Hw. by eapply write_ndArch_extends.
  - intros ipar kinds kind n j Hi Hkinds Hkind Hstrip Hn Hj Hb.
    assert (∃ e, write_ndArch data baselines info fs = Raise e) as [e He].
    { unfold write_ndArch, write_header.
      destruct (write_prologue data info) as [h0|e0]; simpl; [|eauto].
      destruct (for_each_fails
                  (write_axis data baselines info
                     (Z.of_nat (length (shape data)) - 1))
                  (rev (xrange (Z.of_nat (length (shape data)) - 1)))
                  h0 ipar) as [e He].
      - rewrite elem_of_rev. apply elem_of_xrange. lia.
      - intros h1. by eapply write_axis_short.
      - rewrite He. simpl. eauto. }
    exists e. split; [done|].
    pose proof (raises_python_write_ndArch data baselines info fs) as Hp.
    by rewrite He in Hp.
Qed.

End RoundTrip.

(** ** The result writers *)

Section WriterFacts.
Context {hdulist : Type}.
Variable makedirs :
  string → world (hdulist:=hdulist) → world (hdulist:=hdulist) * result unit.
Variable build_hdulist : zpicker → string → result hdulist.

Implicit Types (self : Write_Redmonster (hdulist:=hdulist)).
Implicit Types (w : world (hdulist:=hdulist)).

(** Without a [clobber] argument the writer is built to overwrite. *)
Lemma init_default_clobber z d w w' self :
  init makedirs z d None w = (w', Ok self) → clobber self = true.
Proof.
  unfold init. intros Hi.
  repeat (case_match; simplify_eq/=); done.
Qed.

(** [write_fiber] leaves the object with [clobber] set, whatever it was. *)
Lemma write_fiber_sets_clobber now self w :
  clobber (write_fiber build_hdulist now self w).1.1 = true.
Proof.
  unfold write_fiber, create_hdulist. simpl.
  destruct (build_hdulist (zpick self) now); done.
Qed.

(** [write_fiber] into a destination directory replaces the file of the
    plain name, whether or not it exists and whatever [clobber] was. *)
Lemma write_fiber_overwrites now self w d h name :
  build_hdulist (zpick self) now = Ok h →
  fiber_name (zpick self) = Ok name → dest self = Some d →
  files (write_fiber build_hdulist now self w).1.2
  = <[path_join d name := h]> (files w).
Proof.
  intros Hh Hname Hd. unfold write_fiber, create_hdulist. simpl.
  rewrite Hh. simpl. rewrite Hd, Hname. simpl.
  unfold hdul_writeto. by rewrite andb_false_r.
Qed.

(** [write_plate] with [clobber] unset keeps an existing file and writes
    under the name with the time stamp. *)
Lemma write_plate_keeps_existing now self w d h :
  build_hdulist (zpick self) now = Ok h →
  clobber self = false → dest self = Some d →
  path_exists (path_join d (plate_name (zpick self))) w = true →
  path_exists (path_join d (plate_name_stamped (zpick self) now)) w = false →
  files (write_plate build_hdulist now self w).1.2
  = <[path_join d (plate_name_stamped (zpick self) now) := h]> (files w).
Proof.
  intros Hh Hc Hd Hex Hst. unfold write_plate, create_hdulist.
  rewrite Hh. simpl. rewrite Hc, Hd, Hex.
  unfold hdul_writeto. by rewrite Hst.
Qed.

End WriterFacts.

(** * The claims on the sample archives *)

Lemma valid_archive_py : valid_archive flux_py baselines_py info_py.
Proof.
  unfold valid_archive. split_and!.
  - done.
  - repeat constructor.
  - exists "ndArch-STAR-v1.fits", ("STAR", "v1"). split; reflexivity.
  - eexists; reflexivity.
  - eexists; reflexivity.
  - intros ns Hns. discriminate Hns.
  - intros us Hus. discriminate Hus.
  - reflexivity.
  - exists kinds5. split_and!; [reflexivity..|].
    intros i kind b L Hkind Hb HL. unfold valid_axis.
    destruct i as [|[|[|[|[|i]]]]]; simplify_eq/=;
      (split_and!; [lia|reflexivity|]).
    + left. split; [done|].
      exists (PFloat 0x1.4p+3%float), (PFloat 0x1.8p+3%float).
      split_and!; reflexivity.
    + right. left. split; [done|].
      exists [PFloat 0x1p+0%float; PFloat 0x1.6p+2%float].
      split; [reflexivity|]. intros x y Hx Hy.
      elem_cases Hx; elem_cases Hy; reflexivity.
    + right. right. left. split; [done|]. by exists ["cool"; "hot"].
    + right. right. right. left. split; [done|].
      by exists ["Vega"; "Sirius"].
    + right. right. right. right. split; reflexivity.
Defined.

Lemma stored_exactly_py :
  stored_exactly sample_library flux_py baselines_py info_py.
Proof.
  eapply stored_exactly_intro.
  - vm_compute. reflexivity.
  - reflexivity.
  - intros name Hname. injection Hname as <-. reflexivity.
  - apply map_Forall_to_list. vm_compute. repeat constructor.
Defined.



(** C2 on the regular axis of the sample archive. *)
Lemma C2_regular_reconstruction_witness :
  baselines5 !! 0%nat
  = Some (map (λ k : nat, VNum (10 + Z.of_nat k * 2)) (seq 0 3)).
Proof.
  destruct (C2_regular_reconstruction "ndArch-STAR-v1.fits" disk5 file5
              baselines5 (info5_read kinds5) 0 3 1 10 2)
    as (_ & _ & Hprog).
  - vm_compute. reflexivity.
  - reflexivity.
  - simpl. lia.
  - reflexivity.
  - vm_compute. reflexivity.
  - vm_compute. reflexivity.
  - vm_compute. reflexivity.
  - apply Hprog.
    + reflexivity.
    + intros k Hk. simpl. unfold id. lia.
    + intros x y. simpl. lia.
Defined.

(** C3 on the sample archive without the keyword of one pixel of its
    irregular axis: the axis is decoded as an index axis. *)
Lemma C3_all_or_nothing_witness :
  ∃ kind,
    (par_axistype (info5_read kinds5_partial) ≫= (.!! 1%nat)) = Some kind
    ∧ kind ≠ "irregular" ∧ kind = "index"
    ∧ baselines5_partial !! 1%nat = Some [VNum 1; VNum 2].
Proof.
  destruct (C3_all_or_nothing "ndArch-STAR-v1.fits" disk5_partial
              file5_partial baselines5_partial (info5_read kinds5_partial)
              1 2 1)
    as (kind & Hkind & Hne & Heq & Hidx).
  - vm_compute. reflexivity.
  - reflexivity.
  - simpl. lia.
  - reflexivity.
  - lia.
  - vm_compute. reflexivity.
  - destruct Hidx as [Hk Hb]; [vm_compute; reflexivity..|].
    exists kind. split_and!; [exact Hkind|exact Hne|exact Hk|exact Hb].
Defined.

(** C4 on the one-dimensional sample archive. *)
Lemma C4_zero_parameter_archive_witness :
  ∃ info, read_ndArch "ndArch-STAR-v1.fits" disk1d = Ok (dat file1d, [], info).
Proof.
  apply (C4_zero_parameter_archive "ndArch-STAR-v1.fits" disk1d file1d
           ("STAR", "v1")).
  - vm_compute. reflexivity.
  - reflexivity.
  - reflexivity.
  - eexists. vm_compute. reflexivity.
  - eexists. vm_compute. reflexivity.
  - eexists. vm_compute. reflexivity.
Defined.



(** C6 on the name of the sample archive. *)
Lemma C6_name_tokens_witness :
  parse_name "ndArch-STAR-v1.fits" = Ok ("STAR", "v1").
Proof.
  destruct (C6_name_tokens (num:=Z) "ndArch-" "STAR" "v1" disk1d)
    as (Hparse & _).
  - reflexivity.
  - reflexivity.
  - right. exists "ndArch". reflexivity.
  - exact Hparse.
Defined.

(** C6 as stated fails on both of its examples: with the extension [.ext]
    the version keeps a part of the extension, and the name without
    tokens raises the index error of the token lookup. *)
Lemma C6_counterexample :
  parse_name "ndArch-STAR-v1.ext" = Ok ("STAR", "v1.ex")
  ∧ parse_name "ndArch-STAR-v1.ext" ≠ Ok ("STAR", "v1")
  ∧ read_ndArch (num:=Z) "bad.ext" ∅ = Raise IndexError
  ∧ read_ndArch (num:=Z) "bad.ext" ∅ ≠ Raise InvalidNameError.
Proof.
  split_and!; try (vm_compute; reflexivity);
    intros Heq; vm_compute in Heq; discriminate Heq.
Qed.

(** C7 on an axis of two elements: what is written for a baseline of two
    is written for a baseline of five. *)
Lemma C7_no_shape_validation_witness :
  write_ndArch flux2 [[VNum 1; VNum 2; VNum 3; VNum 4; VNum 5]] info2 ∅
  = write_ndArch flux2 [[VNum 1; VNum 2]] info2 ∅.
Proof.
  destruct (C7_no_shape_validation flux2 [[VNum 1; VNum 2]] info2 ∅)
    as (_ & Hext & _).
  rewrite (Hext [[VNum 1; VNum 2; VNum 3; VNum 4; VNum 5]]
             (files_of (write_ndArch flux2 [[VNum 1; VNum 2]] info2 ∅))).
  - vm_compute. reflexivity.
  - intros i b Hb. destruct i as [|i]; simplify_eq/=.
    eexists. split; [reflexivity|]. exists [VNum 3; VNum 4; VNum 5].
    reflexivity.
  - vm_compute. reflexivity.
Defined.

(** C7 as stated fails: a baseline of five elements for an axis of two is
    written without error. *)
Lemma C7_counterexample :
  shape flux2 !! 0%nat = Some 2%nat
  ∧ length [VNum 1; VNum 2; VNum 3; VNum 4; VNum (5 : Z)] = 5%nat
  ∧ (∃ fs',
       write_ndArch flux2 [[VNum 1; VNum 2; VNum 3; VNum 4; VNum 5]] info2 ∅
       = Ok fs')
  ∧ write_ndArch flux2 [[VNum 1; VNum 2; VNum 3; VNum 4; VNum 5]] info2 ∅
    ≠ Raise AxisShapeMismatchError.
Proof.
  split_and!; try reflexivity.
  - eexists. vm_compute. reflexivity.
  - intros Heq. vm_compute in Heq. discriminate Heq.
Qed.

(** C8 on the one-dimensional sample archive, which has no flux unit. *)
Lemma C8_bunit_follows_key_witness :
  ∃ name f,
    filename info1d = Some name
    ∧ files_of (write_ndArch flux1d [] info1d ∅) !! name = Some f
    ∧ dat f = flux1d ∧ hdr f !! "BUNIT" = fluxunit info1d.
Proof.
  apply (C8_bunit_follows_key flux1d [] info1d ∅).
  vm_compute. reflexivity.
Defined.

(** C8 as stated fails: with the empty string as flux unit, which is what
    the decoder returns for a file without BUNIT, the encoder writes a
    BUNIT card. *)
Lemma C8_counterexample :
  fluxunit info1d_empty_unit = Some (VStr "")
  ∧ header_of (write_header flux1d [] info1d_empty_unit) !! "BUNIT"
    = Some (VStr "")
  ∧ info_of (read_ndArch "ndArch-STAR-v1.fits" disk1d)
    = Some info1d_empty_unit.
Proof. split_and!; vm_compute; reflexivity. Qed.

(** C9.  The writer built with [clobber=False], run on a directory that
    holds the fiber file: [write_fiber] replaces the file and writes no
    file with a time stamp, because its first statement sets the flag;
    [write_plate], which lacks that statement, keeps the plate file and
    writes the stamped one; and a writer built without the argument has the
    flag set. *)
Lemma C9_write_fiber_overwrites :
  clobber sample_writer = false
  ∧ path_exists "out/redmonster-7443-56000-012.fits" sample_world = true
  ∧ files (write_fiber sample_build "2015-07-01_12:00:00" sample_writer
             sample_world).1.2
    = {[ "out/redmonster-7443-56000-012.fits"
           := "results of 2015-07-01_12:00:00";
         "out/redmonster-7443-56000.fits" := "results of before" ]}
  ∧ files (write_plate sample_build "2015-07-01_12:00:00" sample_writer
             sample_world).1.2
    = {[ "out/redmonster-7443-56000-012.fits" := "results of before";
         "out/redmonster-7443-56000.fits" := "results of before";
         "out/redmonster-7443-56000-2015-07-01_12:00:00.fits"
           := "results of 2015-07-01_12:00:00" ]}
  ∧ (init sample_makedirs sample_zpick (Some "out") None sample_world).2
    = Ok (mk_writer true sample_zpick (Some "out") None).
Proof. split_and!; vm_compute; reflexivity. Qed.

(** C10 on the one-dimensional sample archive. *)
Lemma C10_wavelength_name_not_recovered_witness :
  ∃ name f,
    filename info1d = Some name
    ∧ files_of (write_ndArch flux1d [] info1d ∅) !! name = Some f
    ∧ hdr f !! "CNAME1" = Some (VStr "loglam")
    ∧ hdr f !! "CUNIT1" = Some (VStr "log10(Angstroms)").
Proof.
  destruct (C10_wavelength_name_not_recovered (num:=Z)) as (Hw & _ & _).
  apply (Hw flux1d [] info1d ∅). vm_compute. reflexivity.
Defined.
